(** * Record validation (main.py): field checks, classification, reports

    A shallow embedding of [Entry], [Validator] and the two reporting
    procedures of main.py, together with the parts of the Python runtime the
    program leans on: [int] on strings, [re.match] on anchored patterns and
    the [%s] / [%d] conversions. *)

From Stdlib Require Import List NArith ZArith Bool String Ascii Lia.
From Stdlib Require Import DecimalString.
From Stdlib Require DecimalPos.
Import ListNotations.

Local Open Scope N_scope.

(* ================================================================== *)
(** ** Python values *)

(** A Python [str] is a sequence of Unicode code points. *)
Definition pystr := list N.

(** An ASCII literal of the program text, as a [pystr]. *)
Definition lit (s : string) : pystr :=
  map N_of_ascii (list_ascii_of_string s).

Definition NL : N := 10.
Definition QUOTE : N := 34.

Fixpoint pystr_eqb (a b : pystr) : bool :=
  match a, b with
  | [], [] => true
  | x :: a', y :: b' => (x =? y) && pystr_eqb a' b'
  | _, _ => false
  end.

(** Field values arrive from [json.load]: the class annotates every field as
    [str]; integers are the other kind of value the program's own conversions
    ([int], [%d]) are written for. *)
Inductive pyval : Type :=
| VStr (s : pystr)
| VInt (n : Z).

Inductive exn : Type :=
| TypeError
| ValueError
| KeyError (key : pystr).

Inductive res (A : Type) : Type :=
| Ok (a : A)
| Raise (e : exn).
Arguments Ok {A} a.
Arguments Raise {A} e.

Definition bind {A B : Type} (c : res A) (k : A -> res B) : res B :=
  match c with
  | Ok a => k a
  | Raise e => Raise e
  end.

Notation "x <- c ;; k" := (bind c (fun x => k))
  (at level 61, c at next level, right associativity).

(* ================================================================== *)
(** ** What the interpreter supplies

    The classification of non-ASCII code points comes from the Unicode
    database compiled into the interpreter, and the cap on the number of
    digits [int] converts is an interpreter setting (0 switches it off; older
    interpreters have none).  Both are parameters of the model; ASCII
    behaviour is fixed below. *)
Record PyEnv : Type := {
  uc_isspace : N -> bool;           (* Py_UNICODE_ISSPACE, code points >= 128 *)
  uc_decimal : N -> option Z;       (* Py_UNICODE_TODECIMAL, code points >= 128 *)
  uc_isalnum : N -> bool;           (* Py_UNICODE_ISALNUM, code points >= 128 *)
  int_max_str_digits : N            (* sys.get_int_max_str_digits() *)
}.

Definition in_range (lo hi c : N) : bool := (lo <=? c) && (c <=? hi).

Definition ascii_digit (c : N) : bool := in_range 48 57 c.
Definition ascii_upper (c : N) : bool := in_range 65 90 c.
Definition ascii_lower (c : N) : bool := in_range 97 122 c.

(* ================================================================== *)
(** ** Regular expressions *)

Inductive regex : Type :=
| Void
| Eps
| Cls (p : N -> bool)
| Cat (r1 r2 : regex)
| Alt (r1 r2 : regex)
| Star (r : regex).

(** [r+], [r{n}] and [r{n,}]. *)
Definition Plus (r : regex) : regex := Cat r (Star r).

Fixpoint Rep (n : nat) (r : regex) : regex :=
  match n with
  | O => Eps
  | S n' => Cat r (Rep n' r)
  end.

Definition AtLeast (n : nat) (r : regex) : regex := Cat (Rep n r) (Star r).

Fixpoint nullable (r : regex) : bool :=
  match r with
  | Void => false
  | Eps => true
  | Cls _ => false
  | Cat r1 r2 => nullable r1 && nullable r2
  | Alt r1 r2 => nullable r1 || nullable r2
  | Star _ => true
  end.

Fixpoint deriv (c : N) (r : regex) : regex :=
  match r with
  | Void => Void
  | Eps => Void
  | Cls p => if p c then Eps else Void
  | Cat r1 r2 =>
      if nullable r1
      then Alt (Cat (deriv c r1) r2) (deriv c r2)
      else Cat (deriv c r1) r2
  | Alt r1 r2 => Alt (deriv c r1) (deriv c r2)
  | Star r1 => Cat (deriv c r1) (Star r1)
  end.

(** The whole subject is in the language of [r]. *)
Fixpoint matches (r : regex) (s : pystr) : bool :=
  match s with
  | [] => nullable r
  | c :: s' => matches (deriv c r) s'
  end.

(** The subject without the newline that ends it, when there is one. *)
Fixpoint strip_final_newline (s : pystr) : option pystr :=
  match s with
  | [] => None
  | [c] => if c =? NL then Some [] else None
  | c :: s' =>
      match strip_final_newline s' with
      | Some t => Some (c :: t)
      | None => None
      end
  end.

(** [re.match('^' r '$', s)] as a truth value.  [re.match] anchors at the
    start of the subject; without [re.MULTILINE] the closing [$] holds at the
    end of the subject and also just before a newline that ends it. *)
Definition re_match_anchored (r : regex) (s : pystr) : bool :=
  matches r s ||
  match strip_final_newline s with
  | Some s' => matches r s'
  | None => false
  end.

(** [re.match(pattern, v)]: a subject that is not a string raises. *)
Definition re_match (r : regex) (v : pyval) : res bool :=
  match v with
  | VStr s => Ok (re_match_anchored r s)
  | VInt _ => Raise TypeError
  end.

(** The words of a regular expression. *)
Inductive lang : regex -> pystr -> Prop :=
| lang_eps : lang Eps []
| lang_cls p c : p c = true -> lang (Cls p) [c]
| lang_cat r1 r2 s1 s2 :
    lang r1 s1 -> lang r2 s2 -> lang (Cat r1 r2) (s1 ++ s2)
| lang_alt_l r1 r2 s : lang r1 s -> lang (Alt r1 r2) s
| lang_alt_r r1 r2 s : lang r2 s -> lang (Alt r1 r2) s
| lang_star_nil r : lang (Star r) []
| lang_star_app r s1 s2 :
    lang r s1 -> lang (Star r) s2 -> lang (Star r) (s1 ++ s2).

(* ================================================================== *)
(** ** The program, over an interpreter environment *)

Section Program.

Variable env : PyEnv.

(** *** Character classes of [re] on [str] patterns *)

(** [\s] *)
Definition re_space (c : N) : bool :=
  if c <? 128 then in_range 9 13 c || in_range 28 32 c
  else uc_isspace env c.

(** [\d] *)
Definition re_digit (c : N) : bool :=
  if c <? 128 then ascii_digit c
  else match uc_decimal env c with Some _ => true | None => false end.

(** [\w] *)
Definition re_word (c : N) : bool :=
  if c <? 128
  then ascii_digit c || ascii_upper c || ascii_lower c || (c =? 95)
  else uc_isalnum env c.

(** [а-я] and [А-Я] as written in the patterns: U+0430..U+044F and
    U+0410..U+042F. *)
Definition cyr_lower (c : N) : bool := in_range 1072 1103 c.
Definition cyr_upper (c : N) : bool := in_range 1040 1071 c.

Definition is_char (k c : N) : bool := c =? k.

(** [[^\s@]] *)
Definition email_local_char (c : N) : bool :=
  negb (re_space c || (c =? 64)).

(** [[^\s@.,]] *)
Definition email_domain_char (c : N) : bool :=
  negb (re_space c || (c =? 64) || (c =? 46) || (c =? 44)).

(** [[\wа-яА-Я\s\.\d-]] *)
Definition address_char (c : N) : bool :=
  re_word c || cyr_lower c || cyr_upper c || re_space c || (c =? 46)
  || re_digit c || (c =? 45).

(** [[a-zA-Zа-яА-Я -]] *)
Definition name_char (c : N) : bool :=
  ascii_lower c || ascii_upper c || cyr_lower c || cyr_upper c
  || (c =? 32) || (c =? 45).

(** *** The patterns (between their [^] and [$]) *)

(** [[^\s@]+@([^\s@.,]+\.)+[^\s@.,]{2,}] *)
Definition email_pattern : regex :=
  Cat (Plus (Cls email_local_char))
    (Cat (Cls (is_char 64))
       (Cat (Plus (Cat (Plus (Cls email_domain_char)) (Cls (is_char 46))))
          (AtLeast 2 (Cls email_domain_char)))).

(** [\d{12}] *)
Definition inn_pattern : regex := Rep 12 (Cls re_digit).

(** [\d{2} \d{2}] *)
Definition passport_pattern : regex :=
  Cat (Rep 2 (Cls re_digit)) (Cat (Cls (is_char 32)) (Rep 2 (Cls re_digit))).

(** [[\wа-яА-Я\s\.\d-]* \d+] *)
Definition address_pattern : regex :=
  Cat (Star (Cls address_char))
    (Cat (Cls (is_char 32)) (Plus (Cls re_digit))).

(** [[a-zA-Zа-яА-Я -]+] *)
Definition name_pattern : regex := Plus (Cls name_char).

(** *** [int] *)

Inductive ichar : Type :=
| ISpace
| IDigit (d : Z)
| IPlus
| IMinus
| IUnderscore
| IBad.

(** How the conversion reads one code point: ASCII as it stands, a
    non-ASCII space as a blank, a non-ASCII decimal digit as its value. *)
Definition int_char (c : N) : ichar :=
  if c <? 128 then
    if in_range 9 13 c || (c =? 32) then ISpace
    else if ascii_digit c then IDigit (Z.of_N (c - 48))
    else if c =? 43 then IPlus
    else if c =? 45 then IMinus
    else if c =? 95 then IUnderscore
    else IBad
  else if uc_isspace env c then ISpace
  else match uc_decimal env c with
       | Some d => IDigit d
       | None => IBad
       end.

Fixpoint skip_space (s : list ichar) : list ichar :=
  match s with
  | ISpace :: t => skip_space t
  | _ => s
  end.

(** The run of digits and single underscores; [None] when an underscore is
    doubled or ends the run.  Returns the value, the number of digits and the
    rest of the text. *)
Fixpoint scan_digits (prev_underscore : bool) (acc : Z) (digits : N)
         (s : list ichar) : option (Z * N * list ichar) :=
  match s with
  | IDigit d :: t => scan_digits false (10 * acc + d)%Z (digits + 1) t
  | IUnderscore :: t =>
      if prev_underscore then None else scan_digits true acc digits t
  | _ => if prev_underscore then None else Some (acc, digits, s)
  end.

Definition over_digit_limit (digits : N) : bool :=
  (640 <? digits) && (0 <? int_max_str_digits env)
  && (int_max_str_digits env <? digits).

(** [int(s)] for a string, base 10; [None] is [ValueError]. *)
Definition int_of_str (s : pystr) : option Z :=
  let t := skip_space (map int_char s) in
  let '(sign, t) :=
    match t with
    | IPlus :: t' => (1%Z, t')
    | IMinus :: t' => ((-1)%Z, t')
    | _ => (1%Z, t)
    end in
  match t with
  | IUnderscore :: _ => None
  | _ =>
      match scan_digits false 0%Z 0 t with
      | None => None
      | Some (acc, digits, rest) =>
          if digits =? 0 then None
          else if over_digit_limit digits then None
          else match skip_space rest with
               | [] => Some (sign * acc)%Z
               | _ => None
               end
      end
  end.

Inductive int_result : Type :=
| IntOk (n : Z)
| IntValueError.

Definition py_int (v : pyval) : int_result :=
  match v with
  | VInt n => IntOk n
  | VStr s =>
      match int_of_str s with
      | Some n => IntOk n
      | None => IntValueError
      end
  end.

(** *** Entry

    The nine attributes the constructor copies out of the input mapping.
    The mapping itself, which the constructor also keeps as [curdict], is
    read by nothing below. *)

Record Entry : Type := {
  email : pyval;
  weight : pyval;
  inn : pyval;
  passport_series : pyval;
  occupation : pyval;
  age : pyval;
  academic_degree : pyval;
  worldview : pyval;
  address : pyval
}.

(** *** Validator *)

Record Validator : Type := { entries : list Entry }.

Definition check_email (email : pyval) : res bool :=
  m <- re_match email_pattern email ;;
  if m then Ok true else Ok false.

Definition check_inn (inn : pyval) : res bool :=
  m <- re_match inn_pattern inn ;;
  if m then Ok true else Ok false.

Definition check_passport (passport : pyval) : res bool :=
  m <- re_match passport_pattern passport ;;
  if m then Ok true else Ok false.

Definition check_weight (weight : pyval) : res bool :=
  match py_int weight with
  | IntValueError => Ok false
  | IntOk iweight => Ok ((25 <? iweight)%Z && (iweight <? 300)%Z)
  end.

Definition check_age (age : pyval) : res bool :=
  match py_int age with
  | IntValueError => Ok false
  | IntOk iage => Ok ((18 <=? iage)%Z && (iage <? 110)%Z)
  end.

Definition check_address (address : pyval) : res bool :=
  m <- re_match address_pattern address ;;
  if m then Ok true else Ok false.

Definition check_occupation (occupation : pyval) : res bool :=
  m <- re_match name_pattern occupation ;;
  if m then Ok true else Ok false.

Definition check_degree (degree : pyval) : res bool :=
  m <- re_match name_pattern degree ;;
  if m then Ok true else Ok false.

Definition check_worldview (worldview : pyval) : res bool :=
  m <- re_match name_pattern worldview ;;
  if m then Ok true else Ok false.

Definition parse_entry (entry : Entry) : res (list pystr) :=
  let illegal_keys : list pystr := [] in
  b <- check_email (email entry) ;;
  if negb b then Ok (illegal_keys ++ [lit "email"]) else
  b <- check_inn (inn entry) ;;
  if negb b then Ok (illegal_keys ++ [lit "inn"]) else
  b <- check_passport (passport_series entry) ;;
  if negb b then Ok (illegal_keys ++ [lit "passport_series"]) else
  b <- check_weight (weight entry) ;;
  if negb b then Ok (illegal_keys ++ [lit "weight"]) else
  b <- check_age (age entry) ;;
  if negb b then Ok (illegal_keys ++ [lit "age"]) else
  b <- check_address (address entry) ;;
  if negb b then Ok (illegal_keys ++ [lit "address"]) else
  b <- check_occupation (occupation entry) ;;
  if negb b then Ok (illegal_keys ++ [lit "occupation"]) else
  b <- check_degree (academic_degree entry) ;;
  if negb b then Ok (illegal_keys ++ [lit "academic_degree"]) else
  b <- check_worldview (worldview entry) ;;
  if negb b then Ok (illegal_keys ++ [lit "worldview"]) else
  Ok illegal_keys.

(** The loop of [parse] over the entries still to visit, with the two lists
    built so far. *)
Fixpoint parse_loop (todo : list Entry)
         (illegal_entries : list (list pystr)) (legal_entries : list Entry)
  : res (list (list pystr) * list Entry) :=
  match todo with
  | [] => Ok (illegal_entries, legal_entries)
  | i :: todo' =>
      illkeys <- parse_entry i ;;
      if negb (Nat.eqb (List.length illkeys) 0)
      then parse_loop todo' (illegal_entries ++ [illkeys]) legal_entries
      else parse_loop todo' illegal_entries (legal_entries ++ [i])
  end.

(** [parse] as a step on the validator: the object after the call and the
    pair it returns. *)
Definition parse (self : Validator)
  : res (Validator * (list (list pystr) * list Entry)) :=
  out <- parse_loop (entries self) [] [] ;;
  Ok (self, out).

(** *** Vocabulary of the statements *)

Definition is_str (v : pyval) : bool :=
  match v with
  | VStr _ => true
  | VInt _ => false
  end.

(** The seven fields handed to [re.match] hold strings. *)
Definition str_fields (e : Entry) : bool :=
  is_str (email e) && is_str (inn e) && is_str (passport_series e)
  && is_str (address e) && is_str (occupation e)
  && is_str (academic_degree e) && is_str (worldview e).

(** The classification as the specification words it: an ordered list of
    (field name, check) pairs, walked until the first check that fails. *)
Definition spec_check_order : list (pystr * (Entry -> res bool)) :=
  [ (lit "email", fun e => check_email (email e));
    (lit "inn", fun e => check_inn (inn e));
    (lit "passport_series", fun e => check_passport (passport_series e));
    (lit "weight", fun e => check_weight (weight e));
    (lit "age", fun e => check_age (age e));
    (lit "address", fun e => check_address (address e));
    (lit "occupation", fun e => check_occupation (occupation e));
    (lit "academic_degree", fun e => check_degree (academic_degree e));
    (lit "worldview", fun e => check_worldview (worldview e)) ].

Fixpoint spec_first_failure (checks : list (pystr * (Entry -> res bool)))
         (e : Entry) : res (list pystr) :=
  match checks with
  | [] => Ok []
  | (field, check) :: checks' =>
      b <- check e ;;
      if b then spec_first_failure checks' e else Ok [field]
  end.

(** A record is accepted when [parse_entry] blames nothing. *)
Definition accepted (e : Entry) : bool :=
  match parse_entry e with
  | Ok [] => true
  | _ => false
  end.

Definition rejected (e : Entry) : bool := negb (accepted e).

(** What [parse_entry] blames. *)
Definition blamed (e : Entry) : list pystr :=
  match parse_entry e with
  | Ok keys => keys
  | Raise _ => []
  end.

(** The shape of an address as the specification words it: a text portion
    of Latin letters, Cyrillic letters, digits, spaces, periods and hyphens,
    then one space, then one or more digits.  Cyrillic is read widely here
    (the blocks U+0400..U+052F). *)
Definition spec_address_text_char (c : N) : bool :=
  ascii_lower c || ascii_upper c || in_range 1024 1327 c || re_digit c
  || (c =? 32) || (c =? 46) || (c =? 45).

Definition spec_address_shape (s : pystr) : Prop :=
  exists text number,
    s = text ++ 32 :: number
    /\ Forall (fun c => spec_address_text_char c = true) text
    /\ number <> []
    /\ Forall (fun c => re_digit c = true) number.

(** The shape the pattern of [check_email] describes: a non-empty local
    part, the at sign, one or more non-empty labels each closed by a dot, and
    a last label of two or more characters. *)
Definition email_shape (s : pystr) : Prop :=
  exists local labels last,
    s = local ++ 64 :: List.concat (map (fun l => l ++ [46]) labels) ++ last
    /\ local <> []
    /\ Forall (fun c => email_local_char c = true) local
    /\ labels <> []
    /\ Forall (fun l => l <> [] /\ Forall (fun c => email_domain_char c = true) l)
              labels
    /\ (2 <= List.length last)%nat
    /\ Forall (fun c => email_domain_char c = true) last.

(** Twelve decimal digits. *)
Definition inn_shape (s : pystr) : Prop :=
  List.length s = 12%nat /\ Forall (fun c => re_digit c = true) s.

(** Two digits, a space, two digits. *)
Definition passport_shape (s : pystr) : Prop :=
  exists a b,
    s = a ++ 32 :: b
    /\ List.length a = 2%nat /\ Forall (fun c => re_digit c = true) a
    /\ List.length b = 2%nat /\ Forall (fun c => re_digit c = true) b.

(** One or more characters of the class of the three name fields. *)
Definition name_shape (s : pystr) : Prop :=
  s <> [] /\ Forall (fun c => name_char c = true) s.

(** The shape the pattern of [check_address] describes. *)
Definition address_shape (s : pystr) : Prop :=
  exists text number,
    s = text ++ 32 :: number
    /\ Forall (fun c => address_char c = true) text
    /\ number <> []
    /\ Forall (fun c => re_digit c = true) number.

End Program.

(* ================================================================== *)
(** ** Reporting *)

(** [str(n)] for an integer, which is also what [%d] prints for one. *)
Definition str_of_Z (n : Z) : pystr := lit (NilZero.string_of_int (Z.to_int n)).

(** The number of digits [str] writes for an integer. *)
Definition decimal_digits (n : Z) : nat :=
  match Z.to_int n with
  | Decimal.Pos d => Decimal.nb_digits d
  | Decimal.Neg d => Decimal.nb_digits d
  end.

(** The conversion of an integer to text raises [ValueError] when the
    interpreter sets a digit limit and the integer has more digits: the text,
    sign included, is longer than 640 characters and the digits are more than
    the limit. *)
Definition over_str_limit (env : PyEnv) (n : Z) : bool :=
  let digits := N.of_nat (decimal_digits n) in
  (640 <? digits + (if (n <? 0)%Z then 1 else 0))
  && (0 <? int_max_str_digits env)
  && (int_max_str_digits env <? digits).

Definition py_str (env : PyEnv) (n : Z) : res pystr :=
  if over_str_limit env n then Raise ValueError else Ok (str_of_Z n).

(** [errors_count]: a dict keeps its keys in insertion order. *)
Definition dict : Type := list (pystr * Z).

Definition errors_count_init : dict :=
  [ (lit "email", 0%Z);
    (lit "weight", 0%Z);
    (lit "inn", 0%Z);
    (lit "passport_series", 0%Z);
    (lit "occupation", 0%Z);
    (lit "age", 0%Z);
    (lit "academic_degree", 0%Z);
    (lit "worldview", 0%Z);
    (lit "address", 0%Z) ].

(** [d[j] += 1]: an absent key raises, a present key keeps its place. *)
Fixpoint dict_incr (d : dict) (j : pystr) : res dict :=
  match d with
  | [] => Raise (KeyError j)
  | (k, v) :: d' =>
      if pystr_eqb k j then Ok ((k, v + 1)%Z :: d')
      else d'' <- dict_incr d' j ;; Ok ((k, v) :: d'')
  end.

(** [for j in i: errors_count[j] += 1; all_errors_count += 1] *)
Fixpoint count_keys (i : list pystr) (all_errors_count : Z) (errors_count : dict)
  : res (Z * dict) :=
  match i with
  | [] => Ok (all_errors_count, errors_count)
  | j :: i' =>
      errors_count' <- dict_incr errors_count j ;;
      count_keys i' (all_errors_count + 1)%Z errors_count'
  end.

(** [for i in result: ...] *)
Fixpoint count_errors (result : list (list pystr)) (all_errors_count : Z)
         (errors_count : dict) : res (Z * dict) :=
  match result with
  | [] => Ok (all_errors_count, errors_count)
  | i :: result' =>
      st <- count_keys i all_errors_count errors_count ;;
      count_errors result' (fst st) (snd st)
  end.

(** 'Всего ошибок: ' *)
Definition total_label : pystr :=
  [1042; 1089; 1077; 1075; 1086; 32; 1086; 1096; 1080; 1073; 1086; 1082; 58; 32].

(** 'Количество ошибок по типам: ' *)
Definition by_kind_label : pystr :=
  [1050; 1086; 1083; 1080; 1095; 1077; 1089; 1090; 1074; 1086; 32;
   1086; 1096; 1080; 1073; 1086; 1082; 32; 1087; 1086; 32;
   1090; 1080; 1087; 1072; 1084; 58; 32].

(** One line per key, in the order of the dict. *)
Definition item_lines (errors_count : dict) : pystr :=
  List.concat (map (fun kv => fst kv ++ lit ": " ++ str_of_Z (snd kv) ++ [NL])
              errors_count).

(** Where the summary went: the console, or the file of that name. *)
Inductive report : Type :=
| Printed (text : pystr)
| Written (filename : pystr) (text : pystr).

Definition show_summary (result : list (list pystr)) (filename : pystr)
  : res report :=
  st <- count_errors result 0%Z errors_count_init ;;
  let all_errors_count := fst st in
  let errors_count := snd st in
  if pystr_eqb filename []
  then Ok (Printed ([NL] ++ total_label ++ str_of_Z all_errors_count ++ [NL]
                      ++ [NL] ++ by_kind_label ++ [NL]
                      ++ item_lines errors_count))
  else Ok (Written filename
             (total_label ++ str_of_Z all_errors_count ++ [NL]
                ++ item_lines errors_count)).

(** The [%s] and [%d] conversions. *)
Definition fmt_s (env : PyEnv) (v : pyval) : res pystr :=
  match v with
  | VStr s => Ok s
  | VInt n => py_str env n
  end.

Definition fmt_d (env : PyEnv) (v : pyval) : res pystr :=
  match v with
  | VInt n => py_str env n
  | VStr _ => Raise TypeError
  end.

Definition quoted (s : pystr) : pystr := [QUOTE] ++ s ++ [QUOTE].

(** One line [      "key": value,] of the template. *)
Definition field_line (key : string) (value : pystr) : pystr :=
  lit "      " ++ quoted (lit key) ++ lit ": " ++ value ++ lit "," ++ [NL].

(** The template of [save_in_json] applied to one entry; the conversions
    run in the order of the template. *)
Definition entry_text (env : PyEnv) (i : Entry) : res pystr :=
  v_email <- fmt_s env (email i) ;;
  v_weight <- fmt_d env (weight i) ;;
  v_inn <- fmt_s env (inn i) ;;
  v_passport <- fmt_s env (passport_series i) ;;
  v_occupation <- fmt_s env (occupation i) ;;
  v_age <- fmt_d env (age i) ;;
  v_degree <- fmt_s env (academic_degree i) ;;
  v_worldview <- fmt_s env (worldview i) ;;
  v_address <- fmt_s env (address i) ;;
  Ok ([NL] ++ lit "    {" ++ [NL]
        ++ field_line "email" (quoted v_email)
        ++ field_line "weight" v_weight
        ++ field_line "inn" (quoted v_inn)
        ++ field_line "passport_series" (quoted v_passport)
        ++ field_line "occupation" (quoted v_occupation)
        ++ field_line "age" v_age
        ++ field_line "academic_degree" (quoted v_degree)
        ++ field_line "worldview" (quoted v_worldview)
        ++ field_line "address" (quoted v_address)
        ++ lit "    },").

(** The loop of [save_in_json]: the text in the file so far, and whether the
    loop ran to its end. *)
Fixpoint write_entries (env : PyEnv) (data : list Entry) (written : pystr)
  : pystr * res unit :=
  match data with
  | [] => (written, Ok tt)
  | i :: data' =>
      match entry_text env i with
      | Ok t => write_entries env data' (written ++ t)
      | Raise e => (written, Raise e)
      end
  end.

(** [save_in_json]: the text that reached the file and the outcome. *)
Definition save_in_json (env : PyEnv) (data : list Entry) (filename : pystr)
  : pystr * pystr * res unit :=
  let '(written, r) := write_entries env data (lit "[") in
  match r with
  | Ok _ => (filename, written ++ [NL] ++ lit "]", Ok tt)
  | Raise e => (filename, written, Raise e)
  end.

(* ================================================================== *)
(** ** Vocabulary of the statements about the report *)

(** The keys of the report in the order the program declares them. *)
Definition declaration_order : list pystr :=
  [ lit "email"; lit "weight"; lit "inn"; lit "passport_series";
    lit "occupation"; lit "age"; lit "academic_degree"; lit "worldview";
    lit "address" ].

(** The order in which [parse_entry] runs its checks. *)
Definition check_names : list pystr :=
  [ lit "email"; lit "inn"; lit "passport_series"; lit "weight"; lit "age";
    lit "address"; lit "occupation"; lit "academic_degree"; lit "worldview" ].

Definition blamed_on (field : pystr) (keys : list pystr) : bool :=
  existsb (pystr_eqb field) keys.

(** How many invalid entries are blamed on [field]. *)
Definition blamed_count (field : pystr) (illegal : list (list pystr)) : Z :=
  Z.of_nat (List.length (filter (blamed_on field) illegal)).

Definition sum_Z (l : list Z) : Z := fold_right Z.add 0%Z l.


(** A value [%s] converts: a string, or an integer within the digit
    limit. *)
Definition printable (env : PyEnv) (v : pyval) : bool :=
  match v with
  | VStr _ => true
  | VInt n => negb (over_str_limit env n)
  end.

(** A value [%d] converts: an integer within the digit limit. *)
Definition printable_number (env : PyEnv) (v : pyval) : bool :=
  match v with
  | VStr _ => false
  | VInt n => negb (over_str_limit env n)
  end.


(** All nine fields hold text. *)
Definition text_fields (e : Entry) : bool :=
  str_fields e && is_str (weight e) && is_str (age e).





(** One more for key [j], the other items as they are. *)
Definition bump (j : pystr) (kv : pystr * Z) : pystr * Z :=
  (fst kv, (snd kv + (if pystr_eqb (fst kv) j then 1 else 0))%Z).


(* ================================================================== *)
(** ** A concrete environment and concrete records

    A fragment of the tables of a CPython 3.11 interpreter: its non-ASCII
    spaces, two of its runs of decimal digits (Arabic-Indic, fullwidth), the
    Latin-1 and basic Cyrillic letters, and its default digit limit. *)
Definition sample_env : PyEnv := {|
  uc_isspace := fun c =>
    (c =? 133) || (c =? 160) || (c =? 5760) || in_range 8192 8202 c
    || (c =? 8232) || (c =? 8233) || (c =? 8239) || (c =? 8287)
    || (c =? 12288);
  uc_decimal := fun c =>
    if in_range 1632 1641 c then Some (Z.of_N (c - 1632))
    else if in_range 65296 65305 c then Some (Z.of_N (c - 65296))
    else None;
  uc_isalnum := fun c =>
    in_range 192 214 c || in_range 216 246 c || in_range 248 255 c
    || in_range 1024 1153 c || in_range 1632 1641 c
    || in_range 65296 65305 c;
  int_max_str_digits := 4300
|}.

(** A record every check accepts, with the text fields the class declares. *)
Definition text_record : Entry := {|
  email := VStr (lit "a@b.co");
  weight := VStr (lit "70");
  inn := VStr (lit "123456789012");
  passport_series := VStr (lit "12 34");
  occupation := VStr (lit "engineer");
  age := VStr (lit "30");
  academic_degree := VStr (lit "master");
  worldview := VStr (lit "atheism");
  address := VStr (lit "Lenina 5")
|}.

(** The same record with its two numbers as integers. *)
Definition int_record : Entry := {|
  email := VStr (lit "a@b.co");
  weight := VInt 70;
  inn := VStr (lit "123456789012");
  passport_series := VStr (lit "12 34");
  occupation := VStr (lit "engineer");
  age := VInt 30;
  academic_degree := VStr (lit "master");
  worldview := VStr (lit "atheism");
  address := VStr (lit "Lenina 5")
|}.

(** Records with one or two bad fields. *)
Definition bad_email_record : Entry := {|
  email := VStr (lit "a@b");
  weight := VStr (lit "70");
  inn := VStr (lit "12345");
  passport_series := VStr (lit "12 34");
  occupation := VStr (lit "engineer");
  age := VStr (lit "30");
  academic_degree := VStr (lit "master");
  worldview := VStr (lit "atheism");
  address := VStr (lit "Lenina 5")
|}.

Definition bad_age_record : Entry := {|
  email := VStr (lit "a@b.co");
  weight := VStr (lit "70");
  inn := VStr (lit "123456789012");
  passport_series := VStr (lit "12 34");
  occupation := VStr (lit "engineer");
  age := VStr (lit "17");
  academic_degree := VStr (lit "master");
  worldview := VStr (lit "atheism");
  address := VStr (lit "Lenina")
|}.

Definition sample_entries : list Entry :=
  [ text_record; bad_age_record; int_record; bad_email_record; text_record ].

(* ================================================================== *)
(** ** Construction from the input mappings *)

(** One object of the input, as [json.load] returns it: a dict from strings
    to values. *)
Definition jobject : Type := list (pystr * pyval).

(** [dic[key]] *)
Fixpoint dict_get (dic : jobject) (key : pystr) : res pyval :=
  match dic with
  | [] => Raise (KeyError key)
  | (k, v) :: dic' => if pystr_eqb k key then Ok v else dict_get dic' key
  end.

(** [Entry.__init__]: the nine lookups in the order of the assignments. *)
Definition Entry_init (dic : jobject) : res Entry :=
  v_email <- dict_get dic (lit "email") ;;
  v_weight <- dict_get dic (lit "weight") ;;
  v_inn <- dict_get dic (lit "inn") ;;
  v_passport_series <- dict_get dic (lit "passport_series") ;;
  v_occupation <- dict_get dic (lit "occupation") ;;
  v_age <- dict_get dic (lit "age") ;;
  v_academic_degree <- dict_get dic (lit "academic_degree") ;;
  v_worldview <- dict_get dic (lit "worldview") ;;
  v_address <- dict_get dic (lit "address") ;;
  Ok {| email := v_email;
        weight := v_weight;
        inn := v_inn;
        passport_series := v_passport_series;
        occupation := v_occupation;
        age := v_age;
        academic_degree := v_academic_degree;
        worldview := v_worldview;
        address := v_address |}.

(** The loop of [Validator.__init__], with the list built so far. *)
Fixpoint Validator_init_loop (todo : list jobject) (built : list Entry)
  : res (list Entry) :=
  match todo with
  | [] => Ok built
  | i :: todo' =>
      e <- Entry_init i ;;
      Validator_init_loop todo' (built ++ [e])
  end.

(** [Validator.__init__] *)
Definition Validator_init (entries : list jobject) : res Validator :=
  built <- Validator_init_loop entries [] ;;
  Ok {| entries := built |}.

(* ================================================================== *)
(** ** The script

    What the module does once the input is loaded: build the validator,
    parse, write the summary, write the valid records.  The argument [data]
    is the list [json.load] returned and [output_file] the name the command
    line settled on; the progress bar, the reading of the input file and the
    empty validator built first and replaced at once are left out.  The
    world is the console, the file each name denotes (two names may denote
    one file) and the content of each file; opening a file for writing
    replaces what it held. *)

Record world : Type := {
  console : pystr;
  file_of : pystr -> N;
  files : N -> option pystr
}.

Definition write_file (name text : pystr) (w : world) : world :=
  {| console := console w;
     file_of := file_of w;
     files := fun f => if f =? file_of w name then Some text else files w f |}.

(** What the file a name denotes holds. *)
Definition read_file (name : pystr) (w : world) : option pystr :=
  files w (file_of w name).

Definition put_report (r : report) (w : world) : world :=
  match r with
  | Printed text =>
      {| console := console w ++ text; file_of := file_of w; files := files w |}
  | Written filename text => write_file filename text w
  end.

Definition script_body (env : PyEnv) (data : list jobject)
           (output_file : pystr) (w : world) : world * res unit :=
  match Validator_init data with
  | Raise e => (w, Raise e)
  | Ok val =>
      match parse env val with
      | Raise e => (w, Raise e)
      | Ok (_, res) =>
          match show_summary (fst res) output_file with
          | Raise e => (w, Raise e)
          | Ok r =>
              let w1 := put_report r w in
              let '(name, text, outcome) :=
                save_in_json env (snd res) (lit "valid_data.txt") in
              (write_file name text w1, outcome)
          end
      end
  end.

(* ================================================================== *)
(** ** Vocabulary of the further statements *)

Definition has_key (dic : jobject) (key : pystr) : bool :=
  existsb (fun kv => pystr_eqb (fst kv) key) dic.

(** The first of the nine keys, in the order of the constructor, that a
    mapping lacks. *)
Definition first_missing (dic : jobject) : option pystr :=
  find (fun key => negb (has_key dic key)) declaration_order.

(** How often [key] occurs in the lists of a result. *)
Definition key_count (key : pystr) (result : list (list pystr)) : Z :=
  Z.of_nat (List.length (filter (pystr_eqb key) (List.concat result))).

Definition known_key (key : pystr) : Prop := In key declaration_order.

(** The value of a run of decimal digits read from the left. *)
Fixpoint uint_value (acc : Z) (d : Decimal.uint) : Z :=
  match d with
  | Decimal.Nil => acc
  | Decimal.D0 d' => uint_value (10 * acc + 0) d'
  | Decimal.D1 d' => uint_value (10 * acc + 1) d'
  | Decimal.D2 d' => uint_value (10 * acc + 2) d'
  | Decimal.D3 d' => uint_value (10 * acc + 3) d'
  | Decimal.D4 d' => uint_value (10 * acc + 4) d'
  | Decimal.D5 d' => uint_value (10 * acc + 5) d'
  | Decimal.D6 d' => uint_value (10 * acc + 6) d'
  | Decimal.D7 d' => uint_value (10 * acc + 7) d'
  | Decimal.D8 d' => uint_value (10 * acc + 8) d'
  | Decimal.D9 d' => uint_value (10 * acc + 9) d'
  end%Z.

(** A mapping with the nine keys, and one without [weight]. *)
Definition sample_object : jobject :=
  [ (lit "age", VInt 30);
    (lit "email", VStr (lit "a@b.co"));
    (lit "weight", VInt 70);
    (lit "inn", VStr (lit "123456789012"));
    (lit "passport_series", VStr (lit "12 34"));
    (lit "occupation", VStr (lit "engineer"));
    (lit "academic_degree", VStr (lit "master"));
    (lit "worldview", VStr (lit "atheism"));
    (lit "address", VStr (lit "Lenina 5"));
    (lit "note", VStr (lit "extra")) ].

(** The mapping of [text_record]: every value is text. *)
Definition text_object : jobject :=
  [ (lit "email", VStr (lit "a@b.co"));
    (lit "weight", VStr (lit "70"));
    (lit "inn", VStr (lit "123456789012"));
    (lit "passport_series", VStr (lit "12 34"));
    (lit "occupation", VStr (lit "engineer"));
    (lit "age", VStr (lit "30"));
    (lit "academic_degree", VStr (lit "master"));
    (lit "worldview", VStr (lit "atheism"));
    (lit "address", VStr (lit "Lenina 5")) ].

Definition object_without_weight : jobject :=
  [ (lit "email", VStr (lit "a@b.co"));
    (lit "inn", VStr (lit "123456789012"));
    (lit "address", VStr (lit "Lenina 5")) ].

(** A record whose email fails and whose other fields are not even text. *)
Definition bad_email_int_record : Entry := {|
  email := VStr (lit "a@b");
  weight := VInt 70;
  inn := VInt 5;
  passport_series := VInt 5;
  occupation := VInt 5;
  age := VInt 30;
  academic_degree := VInt 5;
  worldview := VInt 5;
  address := VInt 5
|}.

(** A record whose email is a number. *)
Definition int_email_record : Entry := {|
  email := VInt 5;
  weight := VInt 70;
  inn := VStr (lit "123456789012");
  passport_series := VStr (lit "12 34");
  occupation := VStr (lit "engineer");
  age := VInt 30;
  academic_degree := VStr (lit "master");
  worldview := VStr (lit "atheism");
  address := VStr (lit "Lenina 5")
|}.

(** A record that passes the first three checks and fails on weight, with
    numbers in the fields checked after it. *)
Definition light_record : Entry := {|
  email := VStr (lit "a@b.co");
  weight := VInt 20;
  inn := VStr (lit "123456789012");
  passport_series := VStr (lit "12 34");
  occupation := VInt 5;
  age := VInt 30;
  academic_degree := VInt 5;
  worldview := VInt 5;
  address := VInt 5
|}.

(** No file yet; a leading [./] does not change the file a name denotes,
    and the two names of the script denote two files. *)
Definition sample_file_of (name : pystr) : N :=
  match name with
  | 46 :: 47 :: rest => if pystr_eqb rest (lit "valid_data.txt") then 1 else 0
  | _ => if pystr_eqb name (lit "valid_data.txt") then 1 else 0
  end.

Definition empty_world : world :=
  {| console := []; file_of := sample_file_of; files := fun _ => None |}.

(* ================================================================== *)
(** ** Derivatives decide the language *)

#[local] Hint Constructors lang : core.

Lemma nullable_lang r : nullable r = true <-> lang r [].
Proof.
  induction r; simpl; split; intro H; try discriminate; auto.
  - inversion H.
  - inversion H.
  - apply andb_true_iff in H as [H1 H2].
    change (@nil N) with (@nil N ++ []). constructor; tauto.
  - inversion H; subst.
    match goal with E : _ ++ _ = [] |- _ => apply app_eq_nil in E as [-> ->] end.
    apply andb_true_iff; tauto.
  - apply orb_true_iff in H as [H | H]; [apply lang_alt_l | apply lang_alt_r]; tauto.
  - apply orb_true_iff. inversion H; subst; tauto.
Qed.

(** A non-empty word of [r*] starts with a non-empty word of [r]. *)
Lemma lang_star_cons r c s :
  lang (Star r) (c :: s) ->
  exists s1 s2, s = s1 ++ s2 /\ lang r (c :: s1) /\ lang (Star r) s2.
Proof.
  intro H. remember (Star r) as r' eqn:Er. remember (c :: s) as w eqn:Ew.
  revert Er Ew.
  induction H; intros Er Ew; try discriminate.
  inversion Er; subst r0.
  destruct s1 as [| c1 s1].
  - simpl in Ew. apply IHlang2; auto.
  - simpl in Ew. inversion Ew; subst. exists s1, s2. auto.
Qed.

Lemma deriv_lang c r : forall s, lang (deriv c r) s <-> lang r (c :: s).
Proof.
  induction r; intro s; simpl.
  - split; intro H; inversion H.
  - split; intro H; inversion H.
  - destruct (p c) eqn:E; split; intro H; inversion H; subst.
    + apply (lang_cls p c E).
    + constructor.
    + congruence.
  - assert (Hcat : lang (Cat (deriv c r1) r2) s -> lang (Cat r1 r2) (c :: s)).
    { intro H; inversion H; subst.
      change (c :: s1 ++ s2) with ((c :: s1) ++ s2).
      constructor; [apply IHr1 |]; assumption. }
    assert (Hinv : lang (Cat r1 r2) (c :: s) ->
                   lang (Cat (deriv c r1) r2) s \/
                   (lang r1 [] /\ lang r2 (c :: s))).
    { intro H; inversion H; subst. destruct s1 as [| c1 s1]; simpl in *.
      - right. subst. auto.
      - match goal with E : _ :: _ = _ :: _ |- _ => inversion E; subst end.
        left. constructor; [apply IHr1 |]; assumption. }
    destruct (nullable r1) eqn:En.
    + split; intro H.
      * inversion H; subst; [auto |].
        change (c :: s) with ([] ++ c :: s).
        constructor; [apply nullable_lang | apply IHr2]; assumption.
      * destruct (Hinv H) as [H1 | [_ H2]];
          [apply lang_alt_l | apply lang_alt_r; apply IHr2]; assumption.
    + split; intro H; [auto |].
      destruct (Hinv H) as [H1 | [H1 _]]; [assumption |].
      apply nullable_lang in H1. congruence.
  - split; intro H; inversion H; subst;
      [apply lang_alt_l, IHr1 | apply lang_alt_r, IHr2
       | apply lang_alt_l, IHr1 | apply lang_alt_r, IHr2]; assumption.
  - split; intro H.
    + inversion H; subst.
      change (c :: s1 ++ s2) with ((c :: s1) ++ s2).
      constructor; [apply IHr |]; assumption.
    + apply lang_star_cons in H as (s1 & s2 & -> & H1 & H2).
      constructor; [apply IHr |]; assumption.
Qed.

Lemma matches_lang : forall s r, matches r s = true <-> lang r s.
Proof.
  induction s as [| c s IH]; intro r; simpl.
  - apply nullable_lang.
  - rewrite IH. apply deriv_lang.
Qed.

(* ================================================================== *)
(** ** Words of the shapes the patterns use *)

Lemma lang_cat_inv r1 r2 s :
  lang (Cat r1 r2) s <->
  exists s1 s2, s = s1 ++ s2 /\ lang r1 s1 /\ lang r2 s2.
Proof.
  split.
  - intro H; inversion H; subst. eauto.
  - intros (s1 & s2 & -> & H1 & H2). constructor; assumption.
Qed.

Lemma lang_cls_inv p s :
  lang (Cls p) s <-> exists c, s = [c] /\ p c = true.
Proof.
  split.
  - intro H; inversion H; subst. eauto.
  - intros (c & -> & H). constructor; assumption.
Qed.

Lemma lang_star_cls p s :
  lang (Star (Cls p)) s <-> Forall (fun c => p c = true) s.
Proof.
  split.
  - intro H. remember (Star (Cls p)) as r eqn:Er.
    induction H; try discriminate; [constructor |].
    injection Er as ->.
    apply lang_cls_inv in H as (c & -> & Hc). simpl.
    constructor; auto.
  - induction 1 as [| c s Hc _ IH]; [constructor |].
    change (c :: s) with ([c] ++ s).
    constructor; [constructor |]; assumption.
Qed.

Lemma lang_plus_cls p s :
  lang (Plus (Cls p)) s <-> s <> [] /\ Forall (fun c => p c = true) s.
Proof.
  unfold Plus. rewrite lang_cat_inv. split.
  - intros (s1 & s2 & -> & H1 & H2).
    apply lang_cls_inv in H1 as (c & -> & Hc). apply lang_star_cls in H2.
    split; [discriminate | constructor; assumption].
  - intros [Hne H]. destruct s as [| c s]; [contradiction |].
    inversion H; subst. exists [c], s.
    split; [reflexivity |]. split; [constructor | apply lang_star_cls]; assumption.
Qed.

Lemma lang_rep_cls p : forall n s,
  lang (Rep n (Cls p)) s
  <-> List.length s = n /\ Forall (fun c => p c = true) s.
Proof.
  induction n as [| n IH]; intro s; simpl.
  - split.
    + intro H; inversion H; subst. split; [reflexivity | constructor].
    + intros [H _]. apply length_zero_iff_nil in H as ->. constructor.
  - rewrite lang_cat_inv. split.
    + intros (s1 & s2 & -> & H1 & H2).
      apply lang_cls_inv in H1 as (c & -> & Hc). apply IH in H2 as [Hl Hf].
      simpl. split; [congruence | constructor; assumption].
    + intros [Hl Hf]. destruct s as [| c s]; [discriminate |].
      inversion Hf; subst. exists [c], s.
      split; [reflexivity |]. split; [constructor; assumption |].
      apply IH. split; [simpl in Hl; congruence | assumption].
Qed.

Lemma lang_at_least_cls p n s :
  lang (AtLeast n (Cls p)) s
  <-> (n <= List.length s)%nat /\ Forall (fun c => p c = true) s.
Proof.
  unfold AtLeast. rewrite lang_cat_inv. split.
  - intros (s1 & s2 & -> & H1 & H2).
    apply lang_rep_cls in H1 as [Hl H1]. apply lang_star_cls in H2.
    rewrite length_app. split; [lia | apply Forall_app; auto].
  - intros [Hl Hf]. exists (firstn n s), (skipn n s).
    rewrite firstn_skipn. split; [reflexivity |].
    rewrite <- (firstn_skipn n s) in Hf. apply Forall_app in Hf as [H1 H2].
    split; [apply lang_rep_cls | apply lang_star_cls; assumption].
    split; [apply firstn_length_le; assumption | assumption].
Qed.

Lemma lang_star_words r s :
  lang (Star r) s
  <-> exists ws, s = List.concat ws /\ Forall (lang r) ws.
Proof.
  split.
  - intro H. remember (Star r) as r' eqn:Er.
    induction H; try discriminate.
    + exists []. split; [reflexivity | constructor].
    + injection Er as ->.
      destruct (IHlang2 eq_refl) as (ws & -> & Hws).
      exists (s1 :: ws). split; [reflexivity | constructor; assumption].
  - intros (ws & -> & Hws). induction Hws; simpl; constructor; assumption.
Qed.

Lemma lang_plus_words r s :
  lang (Plus r) s
  <-> exists ws, ws <> [] /\ s = List.concat ws /\ Forall (lang r) ws.
Proof.
  unfold Plus. rewrite lang_cat_inv. split.
  - intros (s1 & s2 & -> & H1 & H2).
    apply lang_star_words in H2 as (ws & -> & Hws).
    exists (s1 :: ws). split; [discriminate |].
    split; [reflexivity | constructor; assumption].
  - intros (ws & Hne & -> & Hws). destruct ws as [| w ws]; [contradiction |].
    inversion Hws; subst. exists w, (List.concat ws).
    split; [reflexivity |]. split; [assumption |].
    apply lang_star_words. eauto.
Qed.

(* ================================================================== *)
(** ** The closing [$] *)

Lemma strip_final_newline_spec : forall s t,
  strip_final_newline s = Some t <-> s = t ++ [NL].
Proof.
  induction s as [| c s IH]; intro t.
  - simpl. split; [discriminate | intro H; destruct t; discriminate].
  - destruct s as [| c' s'].
    + simpl. destruct (N.eqb_spec c NL) as [-> | Hc]; split; intro H.
      * injection H as <-. reflexivity.
      * destruct t as [| x [| y t]]; try discriminate; reflexivity.
      * discriminate.
      * destruct t as [| x [| y t]]; try discriminate.
        injection H as ->. contradiction.
    + change (strip_final_newline (c :: c' :: s'))
        with (match strip_final_newline (c' :: s') with
              | Some u => Some (c :: u)
              | None => None
              end).
      destruct (strip_final_newline (c' :: s')) as [u |]; split; intro H.
      * injection H as <-. rewrite (proj1 (IH u) eq_refl). reflexivity.
      * destruct t as [| x t]; [discriminate |].
        simpl in H. injection H as -> H.
        pose proof (proj2 (IH t) H) as E. injection E as ->. reflexivity.
      * discriminate.
      * destruct t as [| x t]; [discriminate |].
        simpl in H. injection H as -> H.
        pose proof (proj2 (IH t) H) as E. discriminate.
Qed.

Lemma Ok_true_iff (b : bool) : @Ok bool b = Ok true <-> b = true.
Proof. split; [intro H; injection H; auto | intros ->; reflexivity]. Qed.

(** A pattern closed by [$] accepts the words of its language and those
    words followed by one newline. *)
Lemma re_match_anchored_shape (r : regex) (P : pystr -> Prop) :
  (forall w, matches r w = true <-> P w) ->
  forall s, re_match_anchored r s = true
            <-> P s \/ exists t, s = t ++ [NL] /\ P t.
Proof.
  intros HP s. unfold re_match_anchored. rewrite orb_true_iff, HP.
  apply or_iff_compat_l.
  destruct (strip_final_newline s) as [t |] eqn:E.
  - apply strip_final_newline_spec in E. rewrite HP. split.
    + intro H. eauto.
    + intros (t' & Et & H). subst s.
      apply app_inj_tail in Et as [-> _]. assumption.
  - split; [discriminate |]. intros (t & Et & _).
    apply strip_final_newline_spec in Et. congruence.
Qed.

Lemma re_check_str r s :
  (m <- re_match r (VStr s) ;; if m then Ok true else Ok false)
  = Ok (re_match_anchored r s).
Proof. simpl. destruct (re_match_anchored r s); reflexivity. Qed.

(* ================================================================== *)
(** ** What the pattern checks accept *)

Lemma address_pattern_shape (env : PyEnv) (s : pystr) :
  matches (address_pattern env) s = true <-> address_shape env s.
Proof.
  rewrite matches_lang. unfold address_pattern, address_shape.
  rewrite lang_cat_inv. split.
  - intros (text & rest & -> & Ht & Hr).
    apply lang_star_cls in Ht.
    apply lang_cat_inv in Hr as (sp & number & -> & Hsp & Hn).
    apply lang_cls_inv in Hsp as (c & -> & Hc).
    apply N.eqb_eq in Hc as ->.
    apply lang_plus_cls in Hn as [Hne Hn].
    exists text, number. auto.
  - intros (text & number & -> & Ht & Hne & Hn).
    exists text, (32 :: number).
    split; [reflexivity |]. split; [apply lang_star_cls; assumption |].
    change (32 :: number) with ([32] ++ number).
    constructor; [constructor; reflexivity | apply lang_plus_cls; auto].
Qed.

(** Words that are each a label and its dot, read back as the labels. *)
Lemma dotted_labels (P : pystr -> Prop) : forall ws : list pystr,
  Forall (fun w => exists l, w = l ++ [46] /\ P l) ws ->
  exists labels, ws = map (fun l => l ++ [46]) labels /\ Forall P labels.
Proof.
  induction 1 as [| w ws (l & -> & Hl) _ (labels & -> & Hls)].
  - exists []. split; [reflexivity | constructor].
  - exists (l :: labels). split; [reflexivity | constructor; assumption].
Qed.

Lemma lang_email_label (env : PyEnv) (w : pystr) :
  lang (Cat (Plus (Cls (email_domain_char env))) (Cls (is_char 46))) w
  <-> exists l, w = l ++ [46]
                /\ (l <> [] /\ Forall (fun c => email_domain_char env c = true) l).
Proof.
  rewrite lang_cat_inv. split.
  - intros (l & d & -> & Hl & Hd).
    apply lang_plus_cls in Hl. apply lang_cls_inv in Hd as (c & -> & Hc).
    apply N.eqb_eq in Hc as ->. eauto.
  - intros (l & -> & Hl). exists l, [46].
    split; [reflexivity |]. split; [apply lang_plus_cls; assumption |].
    constructor. reflexivity.
Qed.

Lemma email_pattern_shape (env : PyEnv) (s : pystr) :
  matches (email_pattern env) s = true <-> email_shape env s.
Proof.
  rewrite matches_lang. unfold email_pattern, email_shape.
  rewrite lang_cat_inv. split.
  - intros (local & rest & -> & Hlocal & Hrest).
    apply lang_plus_cls in Hlocal as [Hne Hlocal].
    apply lang_cat_inv in Hrest as (a & tail & -> & Ha & Htail).
    apply lang_cls_inv in Ha as (c & -> & Hc). apply N.eqb_eq in Hc as ->.
    apply lang_cat_inv in Htail as (dom & last & -> & Hdom & Hlast).
    apply lang_at_least_cls in Hlast as [Hlen Hlast].
    apply lang_plus_words in Hdom as (ws & Hws & -> & Hall).
    assert (Hall' : Forall (fun w => exists l, w = l ++ [46]
                     /\ (l <> [] /\ Forall (fun c => email_domain_char env c = true) l)) ws).
    { eapply Forall_impl; [| exact Hall]. intros w Hw.
      apply lang_email_label in Hw. exact Hw. }
    apply dotted_labels in Hall' as (labels & -> & Hlabels).
    exists local, labels, last. repeat split; auto.
    intros ->. apply Hws. reflexivity.
  - intros (local & labels & last & -> & Hne & Hlocal & Hlne & Hlabels & Hlen & Hlast).
    exists local, (64 :: List.concat (map (fun l => l ++ [46]) labels) ++ last).
    split; [reflexivity |]. split; [apply lang_plus_cls; auto |].
    change (64 :: List.concat (map (fun l => l ++ [46]) labels) ++ last)
      with ([64] ++ (List.concat (map (fun l => l ++ [46]) labels) ++ last)).
    constructor; [constructor; reflexivity |].
    constructor; [| apply lang_at_least_cls; auto].
    apply lang_plus_words. exists (map (fun l => l ++ [46]) labels).
    split; [destruct labels; [contradiction | discriminate] |].
    split; [reflexivity |].
    apply Forall_map. eapply Forall_impl; [| exact Hlabels].
    intros l Hl. apply lang_email_label. eauto.
Qed.

(** What [check_email] accepts: a string of the shape of its pattern, or
    such a string and the newline after it.  The local part may hold commas
    and dots. *)
Lemma check_email_shape (env : PyEnv) (s : pystr) :
  check_email env (VStr s) = Ok true
  <-> email_shape env s \/ exists t, s = t ++ [NL] /\ email_shape env t.
Proof.
  unfold check_email. rewrite re_check_str, Ok_true_iff.
  apply re_match_anchored_shape. apply email_pattern_shape.
Qed.

(** What [check_inn] accepts: twelve digits, or twelve digits and the
    newline after them. *)
Lemma check_inn_shape (env : PyEnv) (s : pystr) :
  check_inn env (VStr s) = Ok true
  <-> inn_shape env s \/ exists d, s = d ++ [NL] /\ inn_shape env d.
Proof.
  unfold check_inn. rewrite re_check_str, Ok_true_iff.
  apply re_match_anchored_shape. intro w.
  rewrite matches_lang. apply lang_rep_cls.
Qed.

Lemma passport_pattern_shape (env : PyEnv) (s : pystr) :
  matches (passport_pattern env) s = true <-> passport_shape env s.
Proof.
  rewrite matches_lang. unfold passport_pattern, passport_shape.
  rewrite lang_cat_inv. split.
  - intros (a & rest & -> & Ha & Hrest).
    apply lang_rep_cls in Ha as [Hla Ha].
    apply lang_cat_inv in Hrest as (sp & b & -> & Hsp & Hb).
    apply lang_cls_inv in Hsp as (c & -> & Hc). apply N.eqb_eq in Hc as ->.
    apply lang_rep_cls in Hb as [Hlb Hb].
    exists a, b. auto.
  - intros (a & b & -> & Hla & Ha & Hlb & Hb).
    exists a, (32 :: b).
    split; [reflexivity |]. split; [apply lang_rep_cls; auto |].
    change (32 :: b) with ([32] ++ b).
    constructor; [constructor; reflexivity | apply lang_rep_cls; auto].
Qed.

Lemma check_passport_shape (env : PyEnv) (s : pystr) :
  check_passport env (VStr s) = Ok true
  <-> passport_shape env s \/ exists t, s = t ++ [NL] /\ passport_shape env t.
Proof.
  unfold check_passport. rewrite re_check_str, Ok_true_iff.
  apply re_match_anchored_shape. apply passport_pattern_shape.
Qed.

(** The three name fields share one pattern. *)
Lemma check_occupation_shape (s : pystr) :
  check_occupation (VStr s) = Ok true
  <-> name_shape s \/ exists t, s = t ++ [NL] /\ name_shape t.
Proof.
  unfold check_occupation. rewrite re_check_str, Ok_true_iff.
  apply re_match_anchored_shape. intro w.
  rewrite matches_lang. apply lang_plus_cls.
Qed.

(** The examples of the specification for the pattern checks. *)
Lemma pattern_check_examples (env : PyEnv) :
  check_email env (VStr (lit "a@b.co")) = Ok true
  /\ check_email env (VStr (lit "a@b")) = Ok false
  /\ check_email env (VStr (lit "a b@c.co")) = Ok false
  /\ check_inn env (VStr (lit "123456789012")) = Ok true
  /\ check_inn env (VStr (lit "12345")) = Ok false
  /\ check_passport env (VStr (lit "12 34")) = Ok true
  /\ check_passport env (VStr (lit "1234")) = Ok false
  /\ check_address env (VStr (lit "Lenina 5")) = Ok true
  /\ check_address env (VStr (lit "Lenina")) = Ok false.
Proof. repeat split; vm_compute; reflexivity. Qed.

(** C4. [check_email] accepts strings the claimed shape excludes: a comma
    in the part before the at sign, two dots in a row there, a dot next to
    the at sign, and a newline at the very end. *)
Theorem check_email_accepts_comma (env : PyEnv) :
  (check_email env (VStr (lit "a,b@c.de")) = Ok true
   /\ existsb (N.eqb 44) (lit "a,b@c.de") = true)
  /\ check_email env (VStr (lit "a..b@c.de")) = Ok true
  /\ check_email env (VStr (lit "a.@c.de")) = Ok true
  /\ (check_email env (VStr (lit "a@b.co" ++ [NL])) = Ok true
      /\ existsb (re_space env) (lit "a@b.co" ++ [NL]) = true).
Proof. repeat split; vm_compute; reflexivity. Qed.

(** C5. [check_inn] accepts a string of thirteen characters: twelve digits
    and the newline after them. *)
Theorem check_inn_accepts_trailing_newline (env : PyEnv) :
  check_inn env (VStr (lit "123456789012" ++ [NL])) = Ok true
  /\ List.length (lit "123456789012" ++ [NL]) = 13%nat
  /\ forallb (re_digit env) (lit "123456789012" ++ [NL]) = false.
Proof. repeat split; vm_compute; reflexivity. Qed.

(** C6. [check_address] accepts strings outside the claimed shape: an
    underscore in the text portion, which is neither a Latin or Cyrillic
    letter nor a digit, space, period or hyphen; a tab there; and a newline
    at the very end.  "Lenina 5" is accepted and "Lenina" is not. *)
Theorem check_address_accepts_underscore (env : PyEnv) :
  (check_address env (VStr (lit "a_b 5")) = Ok true
   /\ ~ spec_address_shape env (lit "a_b 5"))
  /\ check_address env (VStr (lit "a" ++ [9] ++ lit "b 5")) = Ok true
  /\ check_address env (VStr (lit "Lenina 5" ++ [NL])) = Ok true
  /\ check_address env (VStr (lit "Lenina 5")) = Ok true
  /\ check_address env (VStr (lit "Lenina")) = Ok false.
Proof.
  split; [split | repeat split; vm_compute; reflexivity].
  - vm_compute. reflexivity.
  - intros (text & number & E & Ht & _ & Hn).
    assert (Hin : In 95 (lit "a_b 5")) by (vm_compute; tauto).
    rewrite E in Hin. apply in_app_or in Hin as [Hin | [Hin | Hin]].
    + rewrite Forall_forall in Ht. specialize (Ht _ Hin).
      vm_compute in Ht. discriminate.
    + discriminate.
    + rewrite Forall_forall in Hn. specialize (Hn _ Hin).
      vm_compute in Hn. discriminate.
Qed.

(* ================================================================== *)
(** ** The numeric checks *)

(** C3. On a string, [check_weight] is true exactly when [int] yields some
    [w] with 25 < w < 300, and [check_age] exactly when it yields some [a]
    with 18 <= a < 110; when [int] raises [ValueError] both are false.
    Weight 25 and 300 are rejected, 26 and 299 accepted; age 17 and 110 are
    rejected, 18 and 109 accepted. *)
Theorem check_weight_age_bounds (env : PyEnv) :
  (forall s : pystr,
      (check_weight env (VStr s) = Ok true
       <-> exists w, int_of_str env s = Some w /\ (25 < w < 300)%Z)
      /\ (check_age env (VStr s) = Ok true
          <-> exists a, int_of_str env s = Some a /\ (18 <= a < 110)%Z)
      /\ (int_of_str env s = None ->
          check_weight env (VStr s) = Ok false
          /\ check_age env (VStr s) = Ok false))
  /\ check_weight env (VStr (lit "25")) = Ok false
  /\ check_weight env (VStr (lit "26")) = Ok true
  /\ check_weight env (VStr (lit "299")) = Ok true
  /\ check_weight env (VStr (lit "300")) = Ok false
  /\ check_age env (VStr (lit "17")) = Ok false
  /\ check_age env (VStr (lit "18")) = Ok true
  /\ check_age env (VStr (lit "109")) = Ok true
  /\ check_age env (VStr (lit "110")) = Ok false.
Proof.
  split; [| repeat split; reflexivity].
  intro s. unfold check_weight, check_age, py_int.
  destruct (int_of_str env s) as [n |]; repeat split.
  - intro H. exists n. split; [reflexivity |].
    injection H as H. apply andb_true_iff in H as [H1 H2]. lia.
  - intros (w & E & Hw). injection E as <-. f_equal.
    apply andb_true_iff. split; lia.
  - intro H. exists n. split; [reflexivity |].
    injection H as H. apply andb_true_iff in H as [H1 H2]. lia.
  - intros (a & E & Ha). injection E as <-. f_equal.
    apply andb_true_iff. split; lia.
  - discriminate.
  - discriminate.
  - discriminate.
  - intros (w & E & _). discriminate.
  - discriminate.
  - intros (a & E & _). discriminate.
Qed.

(** C10. [int] accepts more than plain digit strings, and the two checks
    accept what it accepts: with blanks around the digits, with a leading
    plus sign and with an underscore between digits, [check_weight] and
    [check_age] return true; none of these three strings is a plain digit
    string.  A leading minus sign is read as well.  On every string the two
    checks are the bounds test on whatever [int] yields. *)
Theorem int_accepts_beyond_digits (env : PyEnv) :
  (int_of_str env (lit " 26 ") = Some 26%Z
   /\ check_weight env (VStr (lit " 26 ")) = Ok true
   /\ check_age env (VStr (lit " 26 ")) = Ok true
   /\ forallb ascii_digit (lit " 26 ") = false)
  /\ (int_of_str env (lit "+30") = Some 30%Z
      /\ check_weight env (VStr (lit "+30")) = Ok true
      /\ check_age env (VStr (lit "+30")) = Ok true
      /\ forallb ascii_digit (lit "+30") = false)
  /\ (int_of_str env (lit "2_6") = Some 26%Z
      /\ check_weight env (VStr (lit "2_6")) = Ok true
      /\ check_age env (VStr (lit "2_6")) = Ok true
      /\ forallb ascii_digit (lit "2_6") = false)
  /\ int_of_str env (lit "-30") = Some (-30)%Z
  /\ (forall s : pystr,
        check_weight env (VStr s)
        = Ok (match int_of_str env s with
              | Some w => (25 <? w)%Z && (w <? 300)%Z
              | None => false
              end)
        /\ check_age env (VStr s)
           = Ok (match int_of_str env s with
                 | Some a => (18 <=? a)%Z && (a <? 110)%Z
                 | None => false
                 end)).
Proof.
  repeat split; try reflexivity;
    unfold check_weight, check_age, py_int;
    destruct (int_of_str env s); reflexivity.
Qed.

(* ================================================================== *)
(** ** Classification of one record, and the loop of [parse] *)

Section Classification.

Variable env : PyEnv.

Lemma check_weight_total v : exists b, check_weight env v = Ok b.
Proof. unfold check_weight. destruct (py_int env v); eauto. Qed.

Lemma check_age_total v : exists b, check_age env v = Ok b.
Proof. unfold check_age. destruct (py_int env v); eauto. Qed.

Lemma spec_checks_total e :
  str_fields e = true ->
  Forall (fun fc => exists b, snd fc e = Ok b) (spec_check_order env).
Proof.
  unfold str_fields. intro H.
  repeat (apply andb_true_iff in H as [H ?]).
  destruct e as [em we inn0 ps oc ag de wv ad]; simpl in *.
  destruct em, inn0, ps, oc, de, wv, ad; try discriminate.
  unfold spec_check_order; simpl.
  repeat constructor; simpl;
    try apply check_weight_total; try apply check_age_total;
    unfold check_email, check_inn, check_passport, check_address,
      check_occupation, check_degree, check_worldview;
    rewrite re_check_str; eauto.
Qed.

(** Walking an ordered list of checks that all return stops at the first
    one that fails, or passes them all. *)
Lemma spec_first_failure_cases e checks :
  Forall (fun fc => exists b, snd fc e = Ok b) checks ->
  (exists before field check after,
      checks = before ++ (field, check) :: after
      /\ Forall (fun fc => snd fc e = Ok true) before
      /\ check e = Ok false
      /\ spec_first_failure checks e = Ok [field])
  \/ (Forall (fun fc => snd fc e = Ok true) checks /\ spec_first_failure checks e = Ok []).
Proof.
  induction 1 as [| [f c] checks [b Hb] _ IH]; simpl in *.
  - right. split; [constructor | reflexivity].
  - rewrite Hb; simpl. destruct b.
    + destruct IH as [(before & field & check & after & -> & Hp & Hf & Hr) | [Hp Hr]].
      * left. exists ((f, c) :: before), field, check, after.
        split; [reflexivity |]. split; [constructor; assumption |]. auto.
      * right. split; [constructor; assumption | assumption].
    + left. exists [], f, c, checks.
      split; [reflexivity |]. split; [constructor |]. auto.
Qed.

Lemma parse_entry_spec e :
  parse_entry env e = spec_first_failure (spec_check_order env) e.
Proof.
  unfold parse_entry, spec_check_order; simpl.
  repeat match goal with
         | |- context [bind ?c _] => destruct c as [[|] |]; simpl; try reflexivity
         end.
Qed.

Lemma spec_check_order_names : map fst (spec_check_order env) = check_names.
Proof. reflexivity. Qed.

(** [parse_entry] returns, and blames nothing or one of the nine names. *)
Lemma parse_entry_shape e :
  str_fields e = true ->
  parse_entry env e = Ok []
  \/ exists field, In field check_names /\ parse_entry env e = Ok [field].
Proof.
  intro H. rewrite parse_entry_spec.
  destruct (spec_first_failure_cases e _ (spec_checks_total e H))
    as [(before & field & check & after & E & _ & _ & Hr) | [_ Hr]]; auto.
  right. exists field. split; auto.
  rewrite <- spec_check_order_names, E, map_app. apply in_or_app. right. left. reflexivity.
Qed.

(** *** The loop of [parse] *)
Lemma parse_loop_spec : forall todo illegal legal,
  forallb str_fields todo = true ->
  parse_loop env todo illegal legal
  = Ok (illegal ++ map (blamed env) (filter (rejected env) todo),
        legal ++ filter (accepted env) todo).
Proof.
  induction todo as [| i todo IH]; intros illegal legal H; simpl in *.
  - rewrite !app_nil_r. reflexivity.
  - apply andb_true_iff in H as [Hi H].
    destruct (parse_entry_shape i Hi) as [E | (field & _ & E)].
    + assert (Ha : accepted env i = true) by (unfold accepted; rewrite E; reflexivity).
      unfold rejected at 1. rewrite Ha, E; simpl.
      rewrite (IH illegal (legal ++ [i]) H), <- app_assoc. reflexivity.
    + assert (Ha : accepted env i = false) by (unfold accepted; rewrite E; reflexivity).
      assert (Hb : blamed env i = [field]) by (unfold blamed; rewrite E; reflexivity).
      unfold rejected at 1. rewrite Ha, E; simpl. rewrite Hb.
      rewrite (IH (illegal ++ [[field]]) legal H), <- app_assoc. reflexivity.
Qed.

Lemma blamed_rejected_shape es :
  forallb str_fields es = true ->
  Forall (fun keys => exists field, In field check_names /\ keys = [field])
         (map (blamed env) (filter (rejected env) es)).
Proof.
  induction es as [| e es IH]; simpl; intro H; [constructor |].
  apply andb_true_iff in H as [He H].
  destruct (parse_entry_shape e He) as [E | (field & Hin & E)].
  - assert (Ha : accepted env e = true) by (unfold accepted; rewrite E; reflexivity).
    unfold rejected at 1. rewrite Ha; simpl. apply IH; assumption.
  - assert (Ha : accepted env e = false) by (unfold accepted; rewrite E; reflexivity).
    assert (Hb : blamed env e = [field]) by (unfold blamed; rewrite E; reflexivity).
    unfold rejected at 1. rewrite Ha; simpl. rewrite Hb.
    constructor; [exists field; auto | apply IH; assumption].
Qed.

Lemma filter_split_length (A : Type) (p : A -> bool) (l : list A) :
  (List.length (filter (fun x => negb (p x)) l) + List.length (filter p l)
   = List.length l)%nat.
Proof.
  induction l as [| x l IH]; simpl; [reflexivity |].
  destruct (p x); simpl; lia.
Qed.

End Classification.

(** C1. For a record whose pattern-checked fields are strings,
    [parse_entry] is the walk over the nine checks in the order email, inn,
    passport_series, weight, age, address, occupation, academic_degree,
    worldview that stops at the first failing check: either it returns the
    one-element list naming a field whose check fails while every check
    before it in that order passes, or all nine checks pass and it returns
    the empty list. *)
Theorem parse_entry_first_failure (env : PyEnv) (e : Entry) :
  str_fields e = true ->
  map fst (spec_check_order env)
  = [ lit "email"; lit "inn"; lit "passport_series"; lit "weight"; lit "age";
      lit "address"; lit "occupation"; lit "academic_degree";
      lit "worldview" ]
  /\ parse_entry env e = spec_first_failure (spec_check_order env) e
  /\ ((exists before field check after,
          spec_check_order env = before ++ (field, check) :: after
          /\ Forall (fun fc => snd fc e = Ok true) before
          /\ check e = Ok false
          /\ parse_entry env e = Ok [field])
      \/ (Forall (fun fc => snd fc e = Ok true) (spec_check_order env)
          /\ parse_entry env e = Ok [])).
Proof.
  intro H. split; [reflexivity |]. split; [apply parse_entry_spec |].
  rewrite parse_entry_spec.
  exact (spec_first_failure_cases e _ (spec_checks_total env e H)).
Qed.

Lemma parse_entry_first_failure_witness :
  str_fields bad_email_record = true
  /\ map fst (spec_check_order sample_env)
     = [ lit "email"; lit "inn"; lit "passport_series"; lit "weight"; lit "age";
         lit "address"; lit "occupation"; lit "academic_degree";
         lit "worldview" ]
  /\ parse_entry sample_env bad_email_record
     = spec_first_failure (spec_check_order sample_env) bad_email_record
  /\ ((exists before field check after,
          spec_check_order sample_env = before ++ (field, check) :: after
          /\ Forall (fun fc => snd fc bad_email_record = Ok true) before
          /\ check bad_email_record = Ok false
          /\ parse_entry sample_env bad_email_record = Ok [field])
      \/ (Forall (fun fc => snd fc bad_email_record = Ok true)
                 (spec_check_order sample_env)
          /\ parse_entry sample_env bad_email_record = Ok [])).
Proof.
  split; [reflexivity |].
  apply (parse_entry_first_failure sample_env bad_email_record).
  reflexivity.
Defined.

(** C2. [parse] partitions the held records: it returns, the valid list is
    the sub-list of accepted records and the invalid list is the list of
    blamed names of the rejected records, both in input order; every invalid
    entry holds exactly one of the nine field names; the two lengths add up
    to the number of records; and no record is in both collections. *)
Theorem parse_partition (env : PyEnv) (es : list Entry) :
  forallb str_fields es = true ->
  exists illegal legal,
    parse env {| entries := es |} = Ok ({| entries := es |}, (illegal, legal))
    /\ legal = filter (accepted env) es
    /\ illegal = map (blamed env) (filter (rejected env) es)
    /\ Forall (fun keys => exists field, In field check_names /\ keys = [field])
              illegal
    /\ (List.length illegal + List.length legal = List.length es)%nat
    /\ (forall e, In e es ->
          (In e legal /\ ~ In e (filter (rejected env) es))
          \/ (In e (filter (rejected env) es) /\ ~ In e legal)).
Proof.
  intro H.
  exists (map (blamed env) (filter (rejected env) es)), (filter (accepted env) es).
  split; [| split; [reflexivity | split; [reflexivity | split; [| split]]]].
  - unfold parse; simpl. rewrite (parse_loop_spec env es [] [] H). reflexivity.
  - apply blamed_rejected_shape; assumption.
  - rewrite length_map. apply (filter_split_length _ (accepted env)).
  - intros e He. destruct (accepted env e) eqn:Ea.
    + left. split.
      * apply filter_In; auto.
      * intro Hr. apply filter_In in Hr as [_ Hr].
        unfold rejected in Hr. rewrite Ea in Hr. discriminate.
    + right. split.
      * apply filter_In. split; auto. unfold rejected. rewrite Ea. reflexivity.
      * intro Hl. apply filter_In in Hl as [_ Hl]. congruence.
Qed.

Lemma parse_partition_witness :
  forallb str_fields sample_entries = true
  /\ exists illegal legal,
    parse sample_env {| entries := sample_entries |}
    = Ok ({| entries := sample_entries |}, (illegal, legal))
    /\ legal = filter (accepted sample_env) sample_entries
    /\ illegal = map (blamed sample_env) (filter (rejected sample_env) sample_entries)
    /\ Forall (fun keys => exists field, In field check_names /\ keys = [field])
              illegal
    /\ (List.length illegal + List.length legal = List.length sample_entries)%nat
    /\ (forall e, In e sample_entries ->
          (In e legal /\ ~ In e (filter (rejected sample_env) sample_entries))
          \/ (In e (filter (rejected sample_env) sample_entries) /\ ~ In e legal)).
Proof.
  split; [reflexivity |].
  apply (parse_partition sample_env sample_entries).
  reflexivity.
Defined.

(** C9. [parse] reads the validator and leaves it as it was: it returns the
    validator unchanged together with the two lists, and a second run on the
    validator the first run leaves behind returns the same validator and the
    same two lists. *)
Theorem parse_idempotent (env : PyEnv) (self : Validator) :
  forallb str_fields (entries self) = true ->
  exists out,
    parse env self = Ok (self, out)
    /\ (first <- parse env self ;; parse env (fst first)) = Ok (self, out).
Proof.
  intro H. destruct self as [es]; simpl in H.
  assert (Hp : parse env {| entries := es |}
               = Ok ({| entries := es |},
                     ([] ++ map (blamed env) (filter (rejected env) es),
                      [] ++ filter (accepted env) es))).
  { unfold parse; simpl. rewrite (parse_loop_spec env es [] [] H). reflexivity. }
  eexists. split; [exact Hp |].
  rewrite Hp; simpl. exact Hp.
Qed.

Lemma parse_idempotent_witness :
  forallb str_fields (entries {| entries := sample_entries |}) = true
  /\ exists out,
    parse sample_env {| entries := sample_entries |}
    = Ok ({| entries := sample_entries |}, out)
    /\ (first <- parse sample_env {| entries := sample_entries |} ;;
        parse sample_env (fst first))
       = Ok ({| entries := sample_entries |}, out).
Proof.
  split; [reflexivity |].
  apply (parse_idempotent sample_env {| entries := sample_entries |}).
  reflexivity.
Defined.

(* ================================================================== *)
(** ** Counting the blamed fields *)

Lemma pystr_eqb_eq : forall a b, pystr_eqb a b = true <-> a = b.
Proof.
  induction a as [| x a IH]; destruct b as [| y b]; simpl;
    try (split; [discriminate | discriminate]); try tauto.
  rewrite andb_true_iff, N.eqb_eq, IH.
  split; [intros [-> ->]; reflexivity | intro H; inversion H; auto].
Qed.

Lemma pystr_eqb_refl a : pystr_eqb a a = true.
Proof. apply pystr_eqb_eq. reflexivity. Qed.

Lemma bump_other j (d : dict) :
  ~ In j (map fst d) -> map (bump j) d = d.
Proof.
  induction d as [| [k v] d IH]; simpl; intro H; [reflexivity |].
  unfold bump at 1; simpl.
  destruct (pystr_eqb k j) eqn:E.
  - apply pystr_eqb_eq in E. tauto.
  - rewrite Z.add_0_r, IH; tauto.
Qed.

(** [d[j] += 1] on a present key adds one to that key and keeps the rest. *)
Lemma dict_incr_spec j : forall d : dict,
  NoDup (map fst d) -> In j (map fst d) ->
  dict_incr d j = Ok (map (bump j) d).
Proof.
  induction d as [| [k v] d IH]; simpl; intros Hnd Hin; [contradiction |].
  inversion Hnd as [| ? ? Hk Hnd']; subst.
  unfold bump at 1; simpl.
  destruct (pystr_eqb k j) eqn:E.
  - apply pystr_eqb_eq in E; subst k. rewrite bump_other by assumption. reflexivity.
  - destruct Hin as [-> | Hin]; [rewrite pystr_eqb_refl in E; discriminate |].
    rewrite (IH Hnd' Hin); simpl. rewrite Z.add_0_r. reflexivity.
Qed.

Lemma bump_keys j (d : dict) : map fst (map (bump j) d) = map fst d.
Proof. rewrite map_map. reflexivity. Qed.

Lemma blamed_count_cons field key illegal :
  blamed_count field ([key] :: illegal)
  = ((if pystr_eqb field key then 1 else 0) + blamed_count field illegal)%Z.
Proof.
  unfold blamed_count. cbn [filter blamed_on existsb]. rewrite orb_false_r.
  destruct (pystr_eqb field key); [rewrite length_cons, Nat2Z.inj_succ |]; lia.
Qed.

Lemma count_errors_spec (keys : list pystr) :
  NoDup keys ->
  forall illegal,
    Forall (fun ks => exists field, In field keys /\ ks = [field]) illegal ->
    forall (n : Z) (d : dict),
      map fst d = keys ->
      count_errors illegal n d
      = Ok ((n + Z.of_nat (List.length illegal))%Z,
            map (fun kv => (fst kv, (snd kv + blamed_count (fst kv) illegal)%Z)) d).
Proof.
  intros Hnd illegal H.
  induction H as [| ks illegal (field & Hin & ->) _ IH]; intros n d Hd.
  - simpl. rewrite Z.add_0_r. f_equal. f_equal.
    rewrite <- (map_id d) at 1. apply map_ext. intros [k v]; simpl.
    unfold blamed_count; simpl. rewrite Z.add_0_r. reflexivity.
  - cbn [count_errors count_keys].
    rewrite dict_incr_spec by (rewrite Hd; assumption).
    cbn [bind fst snd].
    rewrite IH by (rewrite bump_keys; assumption).
    f_equal. f_equal; [rewrite length_cons; lia |].
    rewrite map_map. apply map_ext. intros [k v]; simpl.
    rewrite blamed_count_cons. f_equal. lia.
Qed.

Lemma sum_Z_map_add (A : Type) (f g : A -> Z) (l : list A) :
  sum_Z (map (fun x => (f x + g x)%Z) l)
  = (sum_Z (map f l) + sum_Z (map g l))%Z.
Proof. induction l as [| x l IH]; simpl; lia. Qed.

Lemma sum_Z_indicator_out key : forall keys : list pystr,
  ~ In key keys ->
  sum_Z (map (fun k => if pystr_eqb k key then 1%Z else 0%Z) keys) = 0%Z.
Proof.
  induction keys as [| k keys IH]; intro Hout; [reflexivity |].
  cbn [map sum_Z fold_right].
  fold (sum_Z (map (fun k => if pystr_eqb k key then 1%Z else 0%Z) keys)).
  rewrite IH by (intro; apply Hout; right; assumption).
  destruct (pystr_eqb k key) eqn:E; [| reflexivity].
  apply pystr_eqb_eq in E. exfalso. apply Hout. left. assumption.
Qed.

Lemma sum_Z_indicator_in key : forall keys : list pystr,
  NoDup keys -> In key keys ->
  sum_Z (map (fun k => if pystr_eqb k key then 1%Z else 0%Z) keys) = 1%Z.
Proof.
  induction keys as [| k keys IH]; intros Hnd Hin; [contradiction |].
  inversion Hnd as [| ? ? Hk Hnd']; subst. cbn [map sum_Z fold_right].
  fold (sum_Z (map (fun k => if pystr_eqb k key then 1%Z else 0%Z) keys)).
  destruct (pystr_eqb k key) eqn:E.
  - apply pystr_eqb_eq in E; subst k.
    rewrite sum_Z_indicator_out by assumption. reflexivity.
  - destruct Hin as [-> | Hin]; [rewrite pystr_eqb_refl in E; discriminate |].
    rewrite (IH Hnd' Hin). reflexivity.
Qed.

(** Every entry blamed on one known key: the counts add up to the number
    of entries. *)
Lemma blamed_count_sum (keys : list pystr) :
  NoDup keys ->
  forall illegal,
    Forall (fun ks => exists field, In field keys /\ ks = [field]) illegal ->
    sum_Z (map (fun field => blamed_count field illegal) keys)
    = Z.of_nat (List.length illegal).
Proof.
  intros Hnd illegal H.
  induction H as [| ks illegal (field & Hin & ->) _ IH].
  - unfold blamed_count; simpl. induction keys; simpl; auto.
    inversion Hnd; subst. fold (sum_Z (map (fun _ : pystr => 0%Z) keys)). auto.
  - rewrite (map_ext _ _ (fun k => blamed_count_cons k field illegal)).
    rewrite (sum_Z_map_add _ (fun k => if pystr_eqb k field then 1%Z else 0%Z)).
    rewrite IH, sum_Z_indicator_in by assumption.
    rewrite length_cons. lia.
Qed.

Lemma declaration_order_NoDup : NoDup declaration_order.
Proof.
  unfold declaration_order.
  repeat (constructor; [vm_compute; intuition discriminate |]).
  constructor.
Qed.

Lemma check_names_declared field :
  In field check_names -> In field declaration_order.
Proof. vm_compute. intuition. Qed.

Lemma item_lines_declared (count : pystr -> Z) :
  item_lines (map (fun field => (field, count field)) declaration_order)
  = (lit "email" ++ lit ": " ++ str_of_Z (count (lit "email")) ++ [NL])
      ++ (lit "weight" ++ lit ": " ++ str_of_Z (count (lit "weight")) ++ [NL])
      ++ (lit "inn" ++ lit ": " ++ str_of_Z (count (lit "inn")) ++ [NL])
      ++ (lit "passport_series" ++ lit ": "
            ++ str_of_Z (count (lit "passport_series")) ++ [NL])
      ++ (lit "occupation" ++ lit ": "
            ++ str_of_Z (count (lit "occupation")) ++ [NL])
      ++ (lit "age" ++ lit ": " ++ str_of_Z (count (lit "age")) ++ [NL])
      ++ (lit "academic_degree" ++ lit ": "
            ++ str_of_Z (count (lit "academic_degree")) ++ [NL])
      ++ (lit "worldview" ++ lit ": "
            ++ str_of_Z (count (lit "worldview")) ++ [NL])
      ++ (lit "address" ++ lit ": " ++ str_of_Z (count (lit "address")) ++ [NL]).
Proof.
  unfold item_lines, declaration_order.
  cbn [map List.concat fst snd]. rewrite app_nil_r. reflexivity.
Qed.

(** C7. For the invalid list [parse] produces, the report starts from nine
    zero counters in the order email, weight, inn, passport_series,
    occupation, age, academic_degree, worldview, address; the tally ends with
    the grand total equal to the number of invalid entries and each counter
    equal to the number of invalid entries blamed on its field; the nine
    counters add up to that same number; and the text of the report is the
    line of the total followed by nine lines, one per field in that order,
    each the name of the field, a colon, a space and its counter (on the
    console after a blank line and with a heading line between the total and
    the nine lines). *)
Theorem show_summary_counts (env : PyEnv) (es : list Entry) (filename : pystr) :
  forallb str_fields es = true ->
  exists illegal legal,
    parse env {| entries := es |}
    = Ok ({| entries := es |}, (illegal, legal))
    /\ declaration_order
       = [ lit "email"; lit "weight"; lit "inn"; lit "passport_series";
           lit "occupation"; lit "age"; lit "academic_degree";
           lit "worldview"; lit "address" ]
    /\ errors_count_init = map (fun field => (field, 0%Z)) declaration_order
    /\ (let total := Z.of_nat (List.length illegal) in
        let line := fun field : pystr =>
          field ++ lit ": " ++ str_of_Z (blamed_count field illegal) ++ [NL] in
        let lines :=
          line (lit "email") ++ line (lit "weight") ++ line (lit "inn")
            ++ line (lit "passport_series") ++ line (lit "occupation")
            ++ line (lit "age") ++ line (lit "academic_degree")
            ++ line (lit "worldview") ++ line (lit "address") in
        let total_line :=
          [1042; 1089; 1077; 1075; 1086; 32;
           1086; 1096; 1080; 1073; 1086; 1082; 58; 32]
            ++ str_of_Z total ++ [NL] in
        let heading :=
          [1050; 1086; 1083; 1080; 1095; 1077; 1089; 1090; 1074; 1086; 32;
           1086; 1096; 1080; 1073; 1086; 1082; 32; 1087; 1086; 32;
           1090; 1080; 1087; 1072; 1084; 58; 32] ++ [NL] in
        count_errors illegal 0%Z errors_count_init
        = Ok (total,
              map (fun field => (field, blamed_count field illegal))
                  declaration_order)
        /\ sum_Z (map (fun field => blamed_count field illegal)
                      declaration_order) = total
        /\ show_summary illegal filename
           = Ok (if pystr_eqb filename []
                 then Printed ([NL] ++ total_line ++ [NL] ++ heading ++ lines)
                 else Written filename (total_line ++ lines))).
Proof.
  intro H.
  exists (map (blamed env) (filter (rejected env) es)), (filter (accepted env) es).
  split.
  { unfold parse; simpl. rewrite (parse_loop_spec env es [] [] H). reflexivity. }
  split; [reflexivity |]. split; [reflexivity |].
  set (illegal := map (blamed env) (filter (rejected env) es)).
  assert (Hshape : Forall (fun ks => exists field,
                               In field declaration_order /\ ks = [field]) illegal).
  { eapply Forall_impl; [| apply (blamed_rejected_shape env es H)].
    intros ks (field & Hin & ->). exists field.
    split; [apply check_names_declared; assumption | reflexivity]. }
  assert (Hcount :
            count_errors illegal 0%Z errors_count_init
            = Ok (Z.of_nat (List.length illegal),
                  map (fun field => (field, blamed_count field illegal))
                      declaration_order)).
  { rewrite (count_errors_spec declaration_order declaration_order_NoDup
               illegal Hshape 0%Z errors_count_init eq_refl).
    reflexivity. }
  cbv zeta. split; [exact Hcount |]. split.
  - apply (blamed_count_sum declaration_order declaration_order_NoDup illegal Hshape).
  - unfold show_summary. rewrite Hcount. cbn [bind fst snd].
    rewrite (item_lines_declared (fun field => blamed_count field illegal)).
    destruct (pystr_eqb filename []); unfold total_label, by_kind_label;
      rewrite <- ?app_assoc; reflexivity.
Qed.

Lemma show_summary_counts_witness :
  forallb str_fields sample_entries = true
  /\ exists illegal legal,
    parse sample_env {| entries := sample_entries |}
    = Ok ({| entries := sample_entries |}, (illegal, legal))
    /\ declaration_order
       = [ lit "email"; lit "weight"; lit "inn"; lit "passport_series";
           lit "occupation"; lit "age"; lit "academic_degree";
           lit "worldview"; lit "address" ]
    /\ errors_count_init = map (fun field => (field, 0%Z)) declaration_order
    /\ (let total := Z.of_nat (List.length illegal) in
        let line := fun field : pystr =>
          field ++ lit ": " ++ str_of_Z (blamed_count field illegal) ++ [NL] in
        let lines :=
          line (lit "email") ++ line (lit "weight") ++ line (lit "inn")
            ++ line (lit "passport_series") ++ line (lit "occupation")
            ++ line (lit "age") ++ line (lit "academic_degree")
            ++ line (lit "worldview") ++ line (lit "address") in
        let total_line :=
          [1042; 1089; 1077; 1075; 1086; 32;
           1086; 1096; 1080; 1073; 1086; 1082; 58; 32]
            ++ str_of_Z total ++ [NL] in
        let heading :=
          [1050; 1086; 1083; 1080; 1095; 1077; 1089; 1090; 1074; 1086; 32;
           1086; 1096; 1080; 1073; 1086; 1082; 32; 1087; 1086; 32;
           1090; 1080; 1087; 1072; 1084; 58; 32] ++ [NL] in
        count_errors illegal 0%Z errors_count_init
        = Ok (total,
              map (fun field => (field, blamed_count field illegal))
                  declaration_order)
        /\ sum_Z (map (fun field => blamed_count field illegal)
                      declaration_order) = total
        /\ show_summary illegal (lit "21_result.txt")
           = Ok (if pystr_eqb (lit "21_result.txt") []
                 then Printed ([NL] ++ total_line ++ [NL] ++ heading ++ lines)
                 else Written (lit "21_result.txt") (total_line ++ lines))).
Proof.
  split; [reflexivity |].
  apply (show_summary_counts sample_env sample_entries (lit "21_result.txt")).
  reflexivity.
Defined.

(* ================================================================== *)
(** ** Writing the valid records *)

Lemma fmt_s_printable (env : PyEnv) (v : pyval) :
  printable env v = true -> exists s, fmt_s env v = Ok s.
Proof.
  destruct v as [s | n]; simpl; [eauto |].
  unfold py_str. destruct (over_str_limit env n); [discriminate | eauto].
Qed.

Lemma fmt_d_printable (env : PyEnv) (v : pyval) :
  printable_number env v = true -> exists s, fmt_d env v = Ok s.
Proof.
  destruct v as [s | n]; simpl; [discriminate |].
  unfold py_str. destruct (over_str_limit env n); [discriminate | eauto].
Qed.









(** A text weight stops [save_in_json] at the first record. *)
Lemma save_in_json_text_weight (env : PyEnv) (e : Entry) (rest : list Entry)
      (filename w : pystr) :
  printable env (email e) = true ->
  weight e = VStr w ->
  save_in_json env (e :: rest) filename = (filename, lit "[", Raise TypeError).
Proof.
  intros He H. unfold save_in_json. simpl. unfold entry_text.
  destruct (fmt_s_printable env _ He) as [s ->]. rewrite H. reflexivity.
Qed.

(** With its two numbers as integers a record is written whole. *)
Lemma save_in_json_int_record (env : PyEnv) (filename : pystr) :
  exists text,
    entry_text env int_record = Ok text
    /\ save_in_json env [int_record; int_record] filename
       = (filename, lit "[" ++ text ++ text ++ [NL] ++ lit "]", Ok tt).
Proof. eexists. split; reflexivity. Qed.

(** C8. A record whose nine fields are text and which every check accepts
    reaches [save_in_json] through [parse]; there the [%d] conversion of its
    weight raises [TypeError], and only the opening bracket has been
    written. *)
Theorem save_in_json_text_record_raises (env : PyEnv) :
  parse env {| entries := [text_record] |}
  = Ok ({| entries := [text_record] |}, ([], [text_record]))
  /\ save_in_json env [text_record] (lit "valid_data.txt")
     = (lit "valid_data.txt", lit "[", Raise TypeError).
Proof. split; vm_compute; reflexivity. Qed.

(* ================================================================== *)
(** ** Further properties: the pattern checks *)

(** X1. [check_passport] accepts exactly two digits, one space and two
    digits, and such a string followed by one newline. *)
Theorem check_passport_accepts (env : PyEnv) (s : pystr) :
  check_passport env (VStr s) = Ok true
  <-> passport_shape env s \/ exists t, s = t ++ [NL] /\ passport_shape env t.
Proof.
  unfold check_passport. rewrite re_check_str, Ok_true_iff.
  apply re_match_anchored_shape. intro w.
  apply passport_pattern_shape.
Qed.

(** X2. [check_occupation], [check_degree] and [check_worldview] accept
    the same strings: one or more characters among a-z, A-Z, а-я, А-Я, the
    space and the hyphen, and such a string followed by one newline.  The
    empty string is rejected by all three. *)
Theorem name_checks_accept (s : pystr) :
  (check_occupation (VStr s) = Ok true
   <-> name_shape s \/ exists t, s = t ++ [NL] /\ name_shape t)
  /\ (check_degree (VStr s) = Ok true
      <-> name_shape s \/ exists t, s = t ++ [NL] /\ name_shape t)
  /\ (check_worldview (VStr s) = Ok true
      <-> name_shape s \/ exists t, s = t ++ [NL] /\ name_shape t)
  /\ check_occupation (VStr []) = Ok false
  /\ check_degree (VStr []) = Ok false
  /\ check_worldview (VStr []) = Ok false.
Proof.
  assert (Hname : forall w, matches name_pattern w = true <-> name_shape w)
    by (intro w; rewrite matches_lang; apply lang_plus_cls).
  unfold check_occupation, check_degree, check_worldview.
  rewrite re_check_str, Ok_true_iff.
  pose proof (re_match_anchored_shape name_pattern name_shape Hname s) as H.
  split; [exact H |]. split; [exact H |]. split; [exact H |].
  repeat split.
Qed.

(** X3. [check_email] accepts exactly the strings made of a non-empty
    local part without whitespace or at sign (commas and dots allowed), the
    at sign, one or more non-empty labels each closed by a dot, and a last
    label of two or more characters, labels being free of whitespace, at
    signs, dots and commas; and such a string followed by one newline. *)
Theorem check_email_accepts (env : PyEnv) (s : pystr) :
  check_email env (VStr s) = Ok true
  <-> email_shape env s \/ exists t, s = t ++ [NL] /\ email_shape env t.
Proof.
  unfold check_email. rewrite re_check_str, Ok_true_iff.
  apply re_match_anchored_shape. intro w.
  apply email_pattern_shape.
Qed.

(** X4. [check_inn] accepts exactly the strings of twelve decimal digits,
    and such a string followed by one newline. *)
Theorem check_inn_accepts (env : PyEnv) (s : pystr) :
  check_inn env (VStr s) = Ok true
  <-> inn_shape env s \/ exists d, s = d ++ [NL] /\ inn_shape env d.
Proof.
  unfold check_inn. rewrite re_check_str, Ok_true_iff.
  apply (re_match_anchored_shape (inn_pattern env) (inn_shape env)). intro w.
  rewrite matches_lang. apply lang_rep_cls.
Qed.

(** X5. On every string, [check_address] accepts the shape of its pattern
    and that shape followed by one newline, and nothing else. *)
Theorem check_address_accepts (env : PyEnv) (s : pystr) :
  check_address env (VStr s) = Ok true
  <-> address_shape env s \/ exists t, s = t ++ [NL] /\ address_shape env t.
Proof.
  unfold check_address. rewrite re_check_str, Ok_true_iff.
  apply re_match_anchored_shape. apply address_pattern_shape.
Qed.

(* ================================================================== *)
(** ** Further properties: classification and [parse] *)

Section ParseFacts.

Variable env : PyEnv.

(** Walking the checks stops at the first failure without running the
    checks after it. *)
Lemma spec_first_failure_prefix e : forall before field check after,
  Forall (fun fc => snd fc e = Ok true) before ->
  check e = Ok false ->
  spec_first_failure (before ++ (field, check) :: after) e = Ok [field].
Proof.
  induction before as [| [f c] before IH]; intros field check after Hb Hc; simpl.
  - rewrite Hc. reflexivity.
  - inversion Hb as [| ? ? Hfc Hb']; subst. simpl in Hfc. rewrite Hfc; simpl.
    apply IH; assumption.
Qed.

Lemma parse_entry_nil_all_pass e :
  parse_entry env e = Ok [] ->
  check_email env (email e) = Ok true
  /\ check_inn env (inn e) = Ok true
  /\ check_passport env (passport_series e) = Ok true
  /\ check_weight env (weight e) = Ok true
  /\ check_age env (age e) = Ok true
  /\ check_address env (address e) = Ok true
  /\ check_occupation (occupation e) = Ok true
  /\ check_degree (academic_degree e) = Ok true
  /\ check_worldview (worldview e) = Ok true.
Proof.
  unfold parse_entry.
  repeat match goal with
         | |- context [bind ?c _] =>
             destruct c as [[|] |]; simpl; try discriminate
         end.
  intros _. repeat split.
Qed.

Lemma parse_loop_acc : forall todo illegal legal,
  parse_loop env todo illegal legal
  = (r <- parse_loop env todo [] [] ;; Ok (illegal ++ fst r, legal ++ snd r)).
Proof.
  induction todo as [| i todo IH]; intros illegal legal; simpl.
  - rewrite !app_nil_r. reflexivity.
  - destruct (parse_entry env i) as [[| k ks] | x]; simpl; [| | reflexivity].
    + rewrite (IH illegal (legal ++ [i])), (IH [] [i]).
      destruct (parse_loop env todo [] []) as [[il lg] | x]; simpl;
        [rewrite <- app_assoc |]; reflexivity.
    + rewrite (IH (illegal ++ [k :: ks]) legal), (IH [k :: ks] []).
      destruct (parse_loop env todo [] []) as [[il lg] | x]; simpl;
        [rewrite <- app_assoc |]; reflexivity.
Qed.

Lemma parse_loop_app : forall a b illegal legal,
  parse_loop env (a ++ b) illegal legal
  = (r <- parse_loop env a illegal legal ;; parse_loop env b (fst r) (snd r)).
Proof.
  induction a as [| i a IH]; intros b illegal legal; simpl; [reflexivity |].
  destruct (parse_entry env i) as [[| k ks] | x]; simpl;
    [apply IH | apply IH | reflexivity].
Qed.

(** What a returning loop has built. *)
Lemma parse_loop_inv : forall todo illegal legal,
  parse_loop env todo [] [] = Ok (illegal, legal) ->
  legal = filter (accepted env) todo
  /\ illegal = map (blamed env) (filter (rejected env) todo).
Proof.
  induction todo as [| i todo IH]; intros illegal legal.
  - simpl. intro H. injection H as <- <-. split; reflexivity.
  - cbn [parse_loop].
    destruct (parse_entry env i) as [[| k ks] | x] eqn:E; simpl;
      [| | discriminate]; rewrite parse_loop_acc;
      destruct (parse_loop env todo [] []) as [[il lg] | x]; simpl;
      try discriminate; intro H; injection H as <- <-;
      destruct (IH il lg eq_refl) as [-> ->].
    + assert (Ha : accepted env i = true) by (unfold accepted; rewrite E; reflexivity).
      unfold rejected at 2. rewrite Ha. split; reflexivity.
    + assert (Ha : accepted env i = false) by (unfold accepted; rewrite E; reflexivity).
      assert (Hb : blamed env i = k :: ks) by (unfold blamed; rewrite E; reflexivity).
      unfold rejected at 2. rewrite Ha; simpl. rewrite Hb. split; reflexivity.
Qed.

Lemma parse_loop_all_accepted : forall l illegal legal,
  Forall (fun e => accepted env e = true) l ->
  parse_loop env l illegal legal = Ok (illegal, legal ++ l).
Proof.
  induction l as [| i l IH]; intros illegal legal H; simpl.
  - rewrite app_nil_r. reflexivity.
  - inversion H as [| ? ? Hi Hl]; subst. unfold accepted in Hi.
    destruct (parse_entry env i) as [[| k ks] | x]; try discriminate; simpl.
    rewrite (IH illegal (legal ++ [i]) Hl), <- app_assoc. reflexivity.
Qed.

Lemma parse_loop_raise : forall before e after x illegal legal,
  forallb str_fields before = true ->
  parse_entry env e = Raise x ->
  parse_loop env (before ++ e :: after) illegal legal = Raise x.
Proof.
  intros before e after x illegal legal Hb He.
  rewrite parse_loop_app, (parse_loop_spec env before illegal legal Hb); simpl.
  rewrite He. reflexivity.
Qed.

End ParseFacts.

(** X6. [parse_entry] does not look at the fields checked after the one
    it blames: when the checks before a field pass and the check of that
    field fails, the field is blamed whatever the later fields hold, even
    values that would make their checks raise. *)
Theorem parse_entry_ignores_later_fields (env : PyEnv) (e : Entry)
        (before after : list (pystr * (Entry -> res bool)))
        (field : pystr) (check : Entry -> res bool) :
  spec_check_order env = before ++ (field, check) :: after ->
  Forall (fun fc => snd fc e = Ok true) before ->
  check e = Ok false ->
  parse_entry env e = Ok [field].
Proof.
  intros Hsplit Hb Hc. rewrite parse_entry_spec, Hsplit.
  apply spec_first_failure_prefix; assumption.
Qed.

Lemma parse_entry_ignores_later_fields_witness :
  (spec_check_order sample_env
   = firstn 3 (spec_check_order sample_env)
       ++ (lit "weight", fun e => check_weight sample_env (weight e))
       :: skipn 4 (spec_check_order sample_env))
  /\ Forall (fun fc => snd fc light_record = Ok true)
            (firstn 3 (spec_check_order sample_env))
  /\ check_weight sample_env (weight light_record) = Ok false
  /\ str_fields light_record = false
  /\ parse_entry sample_env light_record = Ok [lit "weight"].
Proof.
  assert (H1 : spec_check_order sample_env
               = firstn 3 (spec_check_order sample_env)
                   ++ (lit "weight", fun e => check_weight sample_env (weight e))
                   :: skipn 4 (spec_check_order sample_env)) by reflexivity.
  assert (H2 : Forall (fun fc => snd fc light_record = Ok true)
                      (firstn 3 (spec_check_order sample_env)))
    by (repeat constructor).
  assert (H3 : check_weight sample_env (weight light_record) = Ok false)
    by reflexivity.
  split; [exact H1 |]. split; [exact H2 |]. split; [exact H3 |].
  split; [reflexivity |].
  exact (parse_entry_ignores_later_fields sample_env light_record _ _ _ _ H1 H2 H3).
Defined.

(** X7. One record whose email is not a string aborts the whole batch:
    [parse] raises [TypeError] and returns neither list, however many good
    records come before or after it. *)
Theorem parse_raises_on_int_email (env : PyEnv) (before after : list Entry)
        (e : Entry) (n : Z) :
  forallb str_fields before = true ->
  email e = VInt n ->
  parse env {| entries := before ++ e :: after |} = Raise TypeError.
Proof.
  intros Hb He. unfold parse; simpl.
  rewrite (parse_loop_raise env before e after TypeError); auto.
  unfold parse_entry. rewrite He. reflexivity.
Qed.

Lemma parse_raises_on_int_email_witness :
  forallb str_fields [text_record; bad_age_record] = true
  /\ email int_email_record = VInt 5
  /\ parse sample_env
       {| entries := [text_record; bad_age_record] ++ int_email_record :: [text_record] |}
     = Raise TypeError.
Proof.
  split; [reflexivity |]. split; [reflexivity |].
  apply (parse_raises_on_int_email sample_env [text_record; bad_age_record]
           [text_record] int_email_record 5); reflexivity.
Defined.

(** X8. When [parse] returns, a record is in the valid list exactly when
    it is one of the held records and passes each of the nine checks. *)
Theorem parse_legal_pass_all_checks (env : PyEnv) (self self' : Validator)
        (illegal : list (list pystr)) (legal : list Entry) (e : Entry) :
  parse env self = Ok (self', (illegal, legal)) ->
  In e legal
  <-> In e (entries self)
      /\ check_email env (email e) = Ok true
      /\ check_inn env (inn e) = Ok true
      /\ check_passport env (passport_series e) = Ok true
      /\ check_weight env (weight e) = Ok true
      /\ check_age env (age e) = Ok true
      /\ check_address env (address e) = Ok true
      /\ check_occupation (occupation e) = Ok true
      /\ check_degree (academic_degree e) = Ok true
      /\ check_worldview (worldview e) = Ok true.
Proof.
  unfold parse. intro Hp.
  destruct (parse_loop env (entries self) [] []) as [[il lg] |] eqn:E;
    [| discriminate].
  simpl in Hp. injection Hp as _ <- <-.
  apply parse_loop_inv in E as [-> _].
  rewrite filter_In. apply and_iff_compat_l. unfold accepted. split.
  - intro Ha. apply parse_entry_nil_all_pass.
    destruct (parse_entry env e) as [[| k ks] | x];
      [reflexivity | discriminate ..].
  - intros (H1 & H2 & H3 & H4 & H5 & H6 & H7 & H8 & H9).
    unfold parse_entry. rewrite H1, H2, H3, H4, H5, H6, H7, H8, H9.
    reflexivity.
Qed.

Lemma parse_legal_pass_all_checks_witness :
  parse sample_env {| entries := sample_entries |}
  = Ok ({| entries := sample_entries |},
        ([[lit "age"]; [lit "email"]], [text_record; int_record; text_record]))
  /\ (In int_record [text_record; int_record; text_record]
      <-> In int_record (entries {| entries := sample_entries |})
          /\ check_email sample_env (email int_record) = Ok true
          /\ check_inn sample_env (inn int_record) = Ok true
          /\ check_passport sample_env (passport_series int_record) = Ok true
          /\ check_weight sample_env (weight int_record) = Ok true
          /\ check_age sample_env (age int_record) = Ok true
          /\ check_address sample_env (address int_record) = Ok true
          /\ check_occupation (occupation int_record) = Ok true
          /\ check_degree (academic_degree int_record) = Ok true
          /\ check_worldview (worldview int_record) = Ok true).
Proof.
  assert (H1 : parse sample_env {| entries := sample_entries |}
               = Ok ({| entries := sample_entries |},
                     ([[lit "age"]; [lit "email"]],
                      [text_record; int_record; text_record])))
    by (vm_compute; reflexivity).
  split; [exact H1 |].
  exact (parse_legal_pass_all_checks sample_env _ _ _ _ int_record H1).
Defined.

(** X9. [parse] of a list in two pieces is [parse] of the pieces: the
    invalid lists and the valid lists are concatenated in order, and the first
    piece that raises makes the whole raise. *)
Theorem parse_app (env : PyEnv) (a b : list Entry) :
  parse env {| entries := a ++ b |}
  = (ra <- parse env {| entries := a |} ;;
     rb <- parse env {| entries := b |} ;;
     Ok ({| entries := a ++ b |},
         (fst (snd ra) ++ fst (snd rb), snd (snd ra) ++ snd (snd rb)))).
Proof.
  unfold parse; simpl. rewrite parse_loop_app.
  destruct (parse_loop env a [] []) as [[ia la] | x]; simpl; [| reflexivity].
  rewrite parse_loop_acc.
  destruct (parse_loop env b [] []) as [[ib lb] | x]; reflexivity.
Qed.

(** X10. Parsing the valid list again returns it whole: no record of it
    is rejected the second time. *)
Theorem parse_legal_again (env : PyEnv) (self self' : Validator)
        (illegal : list (list pystr)) (legal : list Entry) :
  parse env self = Ok (self', (illegal, legal)) ->
  parse env {| entries := legal |} = Ok ({| entries := legal |}, ([], legal)).
Proof.
  unfold parse. intro Hp.
  destruct (parse_loop env (entries self) [] []) as [[il lg] |] eqn:E;
    [| discriminate].
  simpl in Hp. injection Hp as _ <- <-.
  apply parse_loop_inv in E as [-> _]. simpl.
  rewrite parse_loop_all_accepted; [reflexivity |].
  apply Forall_forall. intros e He. apply filter_In in He as [_ He]. exact He.
Qed.

Lemma parse_legal_again_witness :
  parse sample_env {| entries := sample_entries |}
  = Ok ({| entries := sample_entries |},
        ([[lit "age"]; [lit "email"]], [text_record; int_record; text_record]))
  /\ parse sample_env {| entries := [text_record; int_record; text_record] |}
     = Ok ({| entries := [text_record; int_record; text_record] |},
           ([], [text_record; int_record; text_record])).
Proof.
  assert (H1 : parse sample_env {| entries := sample_entries |}
               = Ok ({| entries := sample_entries |},
                     ([[lit "age"]; [lit "email"]],
                      [text_record; int_record; text_record])))
    by (vm_compute; reflexivity).
  split; [exact H1 |].
  exact (parse_legal_again sample_env _ _ _ _ H1).
Defined.

(* ================================================================== *)
(** ** Further properties: construction *)

Lemma dict_get_cases (dic : jobject) (key : pystr) :
  (has_key dic key = true /\ exists v, dict_get dic key = Ok v)
  \/ (has_key dic key = false /\ dict_get dic key = Raise (KeyError key)).
Proof.
  induction dic as [| [k v] dic IH]; simpl.
  - right. split; reflexivity.
  - destruct (pystr_eqb k key); simpl; [left; eauto | exact IH].
Qed.

Lemma Entry_init_first_missing_aux (dic : jobject) :
  match first_missing dic with
  | Some key => Entry_init dic = Raise (KeyError key)
  | None => exists e, Entry_init dic = Ok e
  end.
Proof.
  unfold first_missing, declaration_order, Entry_init. cbn [find].
  repeat match goal with
         | |- context [has_key dic ?k] =>
             destruct (dict_get_cases dic k) as [[Hk [? Hv]] | [Hk Hv]];
             rewrite Hk, Hv; cbn [negb bind]; [| reflexivity]; clear Hk Hv
         end.
  eexists. reflexivity.
Qed.

(** X11. [Entry] construction raises [KeyError] for the first of the nine
    keys, in the order email, weight, inn, passport_series, occupation, age,
    academic_degree, worldview, address, that the mapping lacks, and it
    succeeds when the mapping lacks none; other keys of the mapping do not
    matter. *)
Theorem Entry_init_first_missing (dic : jobject) :
  match first_missing dic with
  | Some key => Entry_init dic = Raise (KeyError key)
  | None => exists e, Entry_init dic = Ok e
  end.
Proof.
  unfold first_missing, declaration_order, Entry_init. cbn [find].
  repeat match goal with
         | |- context [has_key dic ?k] =>
             destruct (dict_get_cases dic k) as [[Hk [? Hv]] | [Hk Hv]];
             rewrite Hk, Hv; cbn [negb bind]; [| reflexivity]; clear Hk Hv
         end.
  eexists. reflexivity.
Qed.

(** X12. Construction yields a record exactly when each of the nine keys
    maps to the value of the field of that name. *)
Theorem Entry_init_fields (dic : jobject) (e : Entry) :
  Entry_init dic = Ok e
  <-> dict_get dic (lit "email") = Ok (email e)
      /\ dict_get dic (lit "weight") = Ok (weight e)
      /\ dict_get dic (lit "inn") = Ok (inn e)
      /\ dict_get dic (lit "passport_series") = Ok (passport_series e)
      /\ dict_get dic (lit "occupation") = Ok (occupation e)
      /\ dict_get dic (lit "age") = Ok (age e)
      /\ dict_get dic (lit "academic_degree") = Ok (academic_degree e)
      /\ dict_get dic (lit "worldview") = Ok (worldview e)
      /\ dict_get dic (lit "address") = Ok (address e).
Proof.
  unfold Entry_init. split.
  - repeat match goal with
           | |- context [bind (dict_get dic ?k) _] =>
               destruct (dict_get dic k); cbn [bind]; [| discriminate]
           end.
    intro H. injection H as <-. repeat split.
  - intros (H1 & H2 & H3 & H4 & H5 & H6 & H7 & H8 & H9).
    rewrite H1, H2, H3, H4, H5, H6, H7, H8, H9. cbn [bind].
    destruct e; reflexivity.
Qed.

Lemma Validator_init_loop_spec : forall todo built es,
  Validator_init_loop todo built = Ok es
  <-> exists es', es = built ++ es'
                  /\ Forall2 (fun d e => Entry_init d = Ok e) todo es'.
Proof.
  induction todo as [| i todo IH]; intros built es; simpl.
  - split.
    + intro H. injection H as <-. exists []. rewrite app_nil_r.
      split; [reflexivity | constructor].
    + intros (es' & -> & H). inversion H; subst. rewrite app_nil_r. reflexivity.
  - destruct (Entry_init i) as [e | x] eqn:E; simpl.
    + rewrite IH. split.
      * intros (es' & -> & H). exists (e :: es'). rewrite <- app_assoc.
        split; [reflexivity | constructor; auto].
      * intros (es' & -> & H). inversion H as [| ? e' ? es'' He Hrest]; subst.
        rewrite E in He. injection He as <-.
        exists es''. rewrite <- app_assoc. auto.
    + split; [discriminate |]. intros (es' & _ & H).
      inversion H; subst. congruence.
Qed.

(** X13. [Validator] construction succeeds exactly when every mapping
    yields a record, and then it holds those records one for one in the
    order of the input. *)
Theorem Validator_init_entries (data : list jobject) (v : Validator) :
  Validator_init data = Ok v
  <-> Forall2 (fun d e => Entry_init d = Ok e) data (entries v).
Proof.
  unfold Validator_init. split.
  - destruct (Validator_init_loop data []) as [es |] eqn:E; [| discriminate].
    simpl. intro H. injection H as <-. simpl.
    apply Validator_init_loop_spec in E as (es' & -> & H). exact H.
  - intro H.
    assert (E : Validator_init_loop data [] = Ok (entries v))
      by (apply Validator_init_loop_spec; exists (entries v); auto).
    rewrite E. destruct v; reflexivity.
Qed.

Lemma Validator_init_loop_raise : forall good bad rest built x,
  Forall (fun d => exists e, Entry_init d = Ok e) good ->
  Entry_init bad = Raise x ->
  Validator_init_loop (good ++ bad :: rest) built = Raise x.
Proof.
  induction good as [| d good IH]; intros bad rest built x Hg Hb; simpl.
  - rewrite Hb. reflexivity.
  - inversion Hg as [| ? ? [e He] Hg']; subst. rewrite He; simpl.
    apply IH; assumption.
Qed.

(** X14. A mapping that lacks one of the nine keys makes [Validator]
    construction raise [KeyError] for the first key it lacks, when the
    mappings before it are complete; no validator is built, whatever
    follows. *)
Theorem Validator_init_missing_key (good rest : list jobject)
        (bad : jobject) (key : pystr) :
  Forall (fun d => first_missing d = None) good ->
  first_missing bad = Some key ->
  Validator_init (good ++ bad :: rest) = Raise (KeyError key).
Proof.
  intros Hg Hb. unfold Validator_init.
  rewrite (Validator_init_loop_raise good bad rest [] (KeyError key));
    [reflexivity | |].
  - eapply Forall_impl; [| exact Hg]. intros d Hd.
    pose proof (Entry_init_first_missing_aux d) as H. rewrite Hd in H. exact H.
  - pose proof (Entry_init_first_missing_aux bad) as H. rewrite Hb in H. exact H.
Qed.

Lemma Validator_init_missing_key_witness :
  Forall (fun d => first_missing d = None) [sample_object; sample_object]
  /\ first_missing object_without_weight = Some (lit "weight")
  /\ Validator_init ([sample_object; sample_object]
                       ++ object_without_weight :: [sample_object])
     = Raise (KeyError (lit "weight")).
Proof.
  assert (H1 : Forall (fun d => first_missing d = None)
                      [sample_object; sample_object])
    by (repeat constructor).
  assert (H2 : first_missing object_without_weight = Some (lit "weight"))
    by reflexivity.
  split; [exact H1 |]. split; [exact H2 |].
  exact (Validator_init_missing_key _ [sample_object] _ _ H1 H2).
Defined.

(* ================================================================== *)
(** ** Further properties: the summary on any result *)

Lemma filter_count_cons (key j : pystr) (i : list pystr) :
  Z.of_nat (List.length (filter (pystr_eqb key) (j :: i)))
  = ((if pystr_eqb key j then 1 else 0)
     + Z.of_nat (List.length (filter (pystr_eqb key) i)))%Z.
Proof.
  cbn [filter]. destruct (pystr_eqb key j);
    [rewrite length_cons, Nat2Z.inj_succ |]; lia.
Qed.

Lemma count_keys_spec (keys : list pystr) :
  NoDup keys ->
  forall i : list pystr,
    Forall (fun j => In j keys) i ->
    forall (n : Z) (d : dict),
      map fst d = keys ->
      count_keys i n d
      = Ok ((n + Z.of_nat (List.length i))%Z,
            map (fun kv =>
                   (fst kv,
                    (snd kv
                     + Z.of_nat (List.length (filter (pystr_eqb (fst kv)) i)))%Z))
                d).
Proof.
  intros Hnd i Hi. induction Hi as [| j i Hj _ IH]; intros n d Hd.
  - simpl. rewrite Z.add_0_r. f_equal. f_equal.
    rewrite <- (map_id d) at 1. apply map_ext. intros [k v]; simpl.
    rewrite Z.add_0_r. reflexivity.
  - cbn [count_keys].
    rewrite dict_incr_spec by (rewrite Hd; assumption). cbn [bind].
    rewrite IH by (rewrite bump_keys; assumption).
    f_equal. f_equal; [rewrite length_cons; lia |].
    rewrite map_map. apply map_ext. intros [k v]. unfold bump. cbn [fst snd].
    rewrite filter_count_cons. f_equal. lia.
Qed.

Lemma count_errors_any (keys : list pystr) :
  NoDup keys ->
  forall result : list (list pystr),
    Forall (Forall (fun j => In j keys)) result ->
    forall (n : Z) (d : dict),
      map fst d = keys ->
      count_errors result n d
      = Ok ((n + Z.of_nat (List.length (List.concat result)))%Z,
            map (fun kv => (fst kv, (snd kv + key_count (fst kv) result)%Z)) d).
Proof.
  intros Hnd result Hr. induction Hr as [| i result Hi _ IH]; intros n d Hd.
  - simpl. rewrite Z.add_0_r. f_equal. f_equal.
    rewrite <- (map_id d) at 1. apply map_ext. intros [k v]; simpl.
    unfold key_count; simpl. rewrite Z.add_0_r. reflexivity.
  - cbn [count_errors].
    rewrite (count_keys_spec keys Hnd i Hi n d Hd). cbn [bind fst snd].
    rewrite IH by (rewrite map_map; exact Hd).
    f_equal. f_equal.
    + cbn [List.concat]. rewrite length_app, Nat2Z.inj_add. lia.
    + rewrite map_map. apply map_ext. intros [k v]. cbn [fst snd].
      unfold key_count. cbn [List.concat].
      rewrite filter_app, length_app, Nat2Z.inj_add. f_equal. lia.
Qed.

(** The summary of a result with known keys. *)
Lemma show_summary_any (result : list (list pystr))
        (filename : pystr) :
  Forall (Forall known_key) result ->
  let total := Z.of_nat (List.length (List.concat result)) in
  let counts :=
    map (fun field => (field, key_count field result)) declaration_order in
  show_summary result filename
  = Ok (if pystr_eqb filename []
        then Printed ([NL] ++ total_label ++ str_of_Z total ++ [NL]
                        ++ [NL] ++ by_kind_label ++ [NL]
                        ++ item_lines counts)
        else Written filename
               (total_label ++ str_of_Z total ++ [NL] ++ item_lines counts)).
Proof.
  intro H. cbv zeta. unfold show_summary.
  rewrite (count_errors_any declaration_order declaration_order_NoDup
             result H 0%Z errors_count_init eq_refl).
  cbn [bind fst snd].
  destruct (pystr_eqb filename []); reflexivity.
Qed.

(** X15. On any result whose keys are all among the nine names,
    [show_summary] counts as total the number of keys in all the lists
    together (an entry with two keys counts twice, an empty entry not at
    all) and for each name the number of its occurrences; the text of the
    report is the line of the total followed by nine lines, one per name in
    declaration order, each the name, a colon, a space and its count (on the
    console after a blank line and with a heading line in between). *)
Theorem show_summary_known_keys (result : list (list pystr))
        (filename : pystr) :
  Forall (Forall known_key) result ->
  let total := Z.of_nat (List.length (List.concat result)) in
  let line := fun field : pystr =>
    field ++ lit ": " ++ str_of_Z (key_count field result) ++ [NL] in
  let lines :=
    line (lit "email") ++ line (lit "weight") ++ line (lit "inn")
      ++ line (lit "passport_series") ++ line (lit "occupation")
      ++ line (lit "age") ++ line (lit "academic_degree")
      ++ line (lit "worldview") ++ line (lit "address") in
  let total_line :=
    [1042; 1089; 1077; 1075; 1086; 32;
     1086; 1096; 1080; 1073; 1086; 1082; 58; 32]
      ++ str_of_Z total ++ [NL] in
  let heading :=
    [1050; 1086; 1083; 1080; 1095; 1077; 1089; 1090; 1074; 1086; 32;
     1086; 1096; 1080; 1073; 1086; 1082; 32; 1087; 1086; 32;
     1090; 1080; 1087; 1072; 1084; 58; 32] ++ [NL] in
  count_errors result 0%Z errors_count_init
  = Ok (total,
        map (fun field => (field, key_count field result)) declaration_order)
  /\ show_summary result filename
     = Ok (if pystr_eqb filename []
           then Printed ([NL] ++ total_line ++ [NL] ++ heading ++ lines)
           else Written filename (total_line ++ lines)).
Proof.
  intro H. cbv zeta.
  assert (Hcount :
            count_errors result 0%Z errors_count_init
            = Ok (Z.of_nat (List.length (List.concat result)),
                  map (fun field => (field, key_count field result))
                      declaration_order)).
  { rewrite (count_errors_any declaration_order declaration_order_NoDup
               result H 0%Z errors_count_init eq_refl).
    reflexivity. }
  split; [exact Hcount |].
  unfold show_summary. rewrite Hcount. cbn [bind fst snd].
  rewrite (item_lines_declared (fun field => key_count field result)).
  destruct (pystr_eqb filename []); unfold total_label, by_kind_label;
    rewrite <- ?app_assoc; reflexivity.
Qed.

Lemma show_summary_known_keys_witness :
  Forall (Forall known_key) [[lit "email"; lit "inn"]; []; [lit "email"]]
  /\ Z.of_nat (List.length
                 (List.concat [[lit "email"; lit "inn"]; []; [lit "email"]]))
     = 3%Z
  /\ (
      let total := Z.of_nat (List.length (List.concat [[lit "email"; lit "inn"]; []; [lit "email"]])) in
      let line := fun field : pystr =>
        field ++ lit ": " ++ str_of_Z (key_count field [[lit "email"; lit "inn"]; []; [lit "email"]]) ++ [NL] in
      let lines :=
        line (lit "email") ++ line (lit "weight") ++ line (lit "inn")
          ++ line (lit "passport_series") ++ line (lit "occupation")
          ++ line (lit "age") ++ line (lit "academic_degree")
          ++ line (lit "worldview") ++ line (lit "address") in
      let total_line :=
        [1042; 1089; 1077; 1075; 1086; 32;
         1086; 1096; 1080; 1073; 1086; 1082; 58; 32]
          ++ str_of_Z total ++ [NL] in
      let heading :=
        [1050; 1086; 1083; 1080; 1095; 1077; 1089; 1090; 1074; 1086; 32;
         1086; 1096; 1080; 1073; 1086; 1082; 32; 1087; 1086; 32;
         1090; 1080; 1087; 1072; 1084; 58; 32] ++ [NL] in
      count_errors [[lit "email"; lit "inn"]; []; [lit "email"]] 0%Z errors_count_init
      = Ok (total,
            map (fun field => (field, key_count field [[lit "email"; lit "inn"]; []; [lit "email"]])) declaration_order)
      /\ show_summary [[lit "email"; lit "inn"]; []; [lit "email"]] (lit "out.txt")
         = Ok (if pystr_eqb (lit "out.txt") []
               then Printed ([NL] ++ total_line ++ [NL] ++ heading ++ lines)
               else Written (lit "out.txt") (total_line ++ lines))).
Proof.
  assert (H : Forall (Forall known_key)
                     [[lit "email"; lit "inn"]; []; [lit "email"]]).
  { repeat constructor; unfold known_key; vm_compute; tauto. }
  split; [exact H |]. split; [reflexivity |].
  exact (show_summary_known_keys _ (lit "out.txt") H).
Defined.

Lemma dict_incr_missing (j : pystr) : forall d : dict,
  ~ In j (map fst d) -> dict_incr d j = Raise (KeyError j).
Proof.
  induction d as [| [k v] d IH]; simpl; intro H; [reflexivity |].
  destruct (pystr_eqb k j) eqn:E.
  - apply pystr_eqb_eq in E. tauto.
  - rewrite IH by tauto. reflexivity.
Qed.

Lemma count_keys_raise (keys : list pystr) :
  NoDup keys ->
  forall (ks1 : list pystr) (key : pystr) (ks2 : list pystr),
    Forall (fun j => In j keys) ks1 ->
    ~ In key keys ->
    forall (n : Z) (d : dict),
      map fst d = keys ->
      count_keys (ks1 ++ key :: ks2) n d = Raise (KeyError key).
Proof.
  intros Hnd ks1 key ks2 H1 Hkey.
  induction H1 as [| j ks1 Hj _ IH]; intros n d Hd; simpl.
  - rewrite dict_incr_missing by (rewrite Hd; assumption). reflexivity.
  - rewrite dict_incr_spec by (rewrite Hd; assumption). cbn [bind].
    apply IH. rewrite bump_keys. assumption.
Qed.

(** X16. A key that is not one of the nine names makes [show_summary]
    raise [KeyError] for the first such key, and nothing is printed or
    written, whichever sink was asked for. *)
Theorem show_summary_unknown_key (before after : list (list pystr))
        (ks1 ks2 : list pystr) (key filename : pystr) :
  Forall (Forall known_key) before ->
  Forall known_key ks1 ->
  ~ known_key key ->
  show_summary (before ++ (ks1 ++ key :: ks2) :: after) filename
  = Raise (KeyError key).
Proof.
  intros Hb H1 Hkey. unfold show_summary.
  assert (E : forall n d, map fst d = declaration_order ->
                count_errors (before ++ (ks1 ++ key :: ks2) :: after) n d
                = Raise (KeyError key)).
  { induction Hb as [| i before Hi _ IH]; intros n d Hd; cbn [app count_errors].
    - rewrite (count_keys_raise declaration_order declaration_order_NoDup
                 ks1 key ks2 H1 Hkey n d Hd). reflexivity.
    - rewrite (count_keys_spec declaration_order declaration_order_NoDup
                 i Hi n d Hd). cbn [bind fst snd].
      apply IH. rewrite map_map. exact Hd. }
  rewrite (E 0%Z errors_count_init eq_refl). reflexivity.
Qed.

Lemma show_summary_unknown_key_witness :
  Forall (Forall known_key) [[lit "email"]]
  /\ Forall known_key [lit "age"]
  /\ ~ known_key (lit "phone")
  /\ show_summary ([[lit "email"]] ++ ([lit "age"] ++ lit "phone" :: []) :: [[lit "inn"]])
                  (lit "out.txt")
     = Raise (KeyError (lit "phone")).
Proof.
  assert (H1 : Forall (Forall known_key) [[lit "email"]])
    by (repeat constructor; unfold known_key; vm_compute; tauto).
  assert (H2 : Forall known_key [lit "age"])
    by (repeat constructor; unfold known_key; vm_compute; tauto).
  assert (H3 : ~ known_key (lit "phone"))
    by (unfold known_key; vm_compute; intuition discriminate).
  split; [exact H1 |]. split; [exact H2 |]. split; [exact H3 |].
  exact (show_summary_unknown_key _ [[lit "inn"]] _ [] _ (lit "out.txt") H1 H2 H3).
Defined.

(* ================================================================== *)
(** ** Further properties: writing the valid records *)



Lemma entry_text_raises (env : PyEnv) (e : Entry) :
  str_fields e = true ->
  (exists s, weight e = VStr s)
  \/ (printable_number env (weight e) = true /\ exists s, age e = VStr s) ->
  entry_text env e = Raise TypeError.
Proof.
  unfold str_fields. intros Hs Hb.
  repeat (apply andb_true_iff in Hs as [Hs ?]).
  destruct e as [em we inn0 ps oc ag de wv ad]; simpl in *.
  destruct em, inn0, ps, oc, de, wv, ad; try discriminate.
  unfold entry_text; simpl.
  destruct Hb as [[sw ->] | [Hw [sa ->]]].
  - reflexivity.
  - destruct (fmt_d_printable env we Hw) as [x ->]. reflexivity.
Qed.




(* ================================================================== *)
(** ** Further properties: [int] *)

Section IntFacts.

Variable env : PyEnv.

Lemma skip_space_all (sp : list ichar) :
  Forall (fun c => c = ISpace) sp -> skip_space sp = [].
Proof. induction 1 as [| c sp -> _ IH]; simpl; auto. Qed.

Lemma skip_space_lead (sp t : list ichar) :
  Forall (fun c => c = ISpace) sp -> skip_space (sp ++ t) = skip_space t.
Proof. induction 1 as [| c sp -> _ IH]; simpl; auto. Qed.

Lemma skip_space_trail (sp : list ichar) :
  Forall (fun c => c = ISpace) sp ->
  forall t, skip_space (t ++ sp)
            = match skip_space t with
              | [] => []
              | u => u ++ sp
              end.
Proof.
  intros Hsp t. induction t as [| c t IH]; simpl.
  - apply skip_space_all. assumption.
  - destruct c; auto.
Qed.

Lemma scan_digits_trail (sp : list ichar) :
  Forall (fun c => c = ISpace) sp ->
  forall a p acc n,
    scan_digits p acc n (a ++ sp)
    = match scan_digits p acc n a with
      | None => None
      | Some (v, k, rest) => Some (v, k, rest ++ sp)
      end.
Proof.
  intros Hsp a. induction a as [| c a IH]; intros p acc n.
  - simpl. destruct Hsp as [| c sp -> _]; simpl; destruct p; reflexivity.
  - destruct c; simpl; try (destruct p; reflexivity).
    + apply IH.
    + destruct p; [reflexivity | apply IH].
Qed.

Lemma map_int_char_spaces (ws : pystr) :
  Forall (fun c => int_char env c = ISpace) ws ->
  Forall (fun c => c = ISpace) (map (int_char env) ws).
Proof. induction 1; simpl; constructor; auto. Qed.

Lemma int_of_str_padded (ws1 s ws2 : pystr) :
  Forall (fun c => int_char env c = ISpace) ws1 ->
  Forall (fun c => int_char env c = ISpace) ws2 ->
  int_of_str env (ws1 ++ s ++ ws2) = int_of_str env s.
Proof.
  intros H1 H2. apply map_int_char_spaces in H1, H2.
  unfold int_of_str. rewrite !map_app.
  rewrite (skip_space_lead _ _ H1), (skip_space_trail _ H2).
  remember (map (int_char env) ws2) as sp eqn:Esp. clear Esp.
  assert (Hfin : forall sign t,
             match scan_digits false 0%Z 0 (t ++ sp) with
             | None => None
             | Some (acc, digits, rest) =>
                 if digits =? 0 then None
                 else if over_digit_limit env digits then None
                 else match skip_space rest with
                      | [] => Some (sign * acc)%Z
                      | _ => None
                      end
             end
             = match scan_digits false 0%Z 0 t with
               | None => None
               | Some (acc, digits, rest) =>
                   if digits =? 0 then None
                   else if over_digit_limit env digits then None
                   else match skip_space rest with
                        | [] => Some (sign * acc)%Z
                        | _ => None
                        end
               end).
  { intros sign t. rewrite (scan_digits_trail _ H2).
    destruct (scan_digits false 0%Z 0 t) as [[[v k] rest] |]; [| reflexivity].
    destruct (k =? 0); [reflexivity |].
    destruct (over_digit_limit env k); [reflexivity |].
    rewrite (skip_space_trail _ H2).
    destruct (skip_space rest); reflexivity. }
  destruct (skip_space (map (int_char env) s)) as [| c t]; [reflexivity |].
  cbn [app].
  destruct c;
    try (exact (Hfin 1%Z (_ :: t)));
    try reflexivity;
    (destruct t as [| c1 t]; cbn [app];
     [destruct H2 as [| c2 sp' -> _]; reflexivity
     | destruct c1; try reflexivity;
       first [exact (Hfin 1%Z (_ :: t)) | exact (Hfin (-1)%Z (_ :: t))]]).
Qed.

End IntFacts.

(** X19. Blanks around the number do not matter: with any run of
    characters [int] reads as blanks before and after a string, [int] yields
    what it yields on the string itself, and so [check_weight] and
    [check_age] return what they return on the string itself. *)
Theorem numeric_checks_ignore_padding (env : PyEnv) (ws1 s ws2 : pystr) :
  Forall (fun c => int_char env c = ISpace) ws1 ->
  Forall (fun c => int_char env c = ISpace) ws2 ->
  int_of_str env (ws1 ++ s ++ ws2) = int_of_str env s
  /\ check_weight env (VStr (ws1 ++ s ++ ws2)) = check_weight env (VStr s)
  /\ check_age env (VStr (ws1 ++ s ++ ws2)) = check_age env (VStr s).
Proof.
  intros H1 H2. unfold check_weight, check_age, py_int.
  rewrite (int_of_str_padded env ws1 s ws2 H1 H2). repeat split.
Qed.

Lemma numeric_checks_ignore_padding_witness :
  Forall (fun c => int_char sample_env c = ISpace) [9; 32; 160]
  /\ Forall (fun c => int_char sample_env c = ISpace) [13; 10]
  /\ int_of_str sample_env ([9; 32; 160] ++ lit "1_70" ++ [13; 10])
     = int_of_str sample_env (lit "1_70")
  /\ check_weight sample_env (VStr ([9; 32; 160] ++ lit "1_70" ++ [13; 10]))
     = check_weight sample_env (VStr (lit "1_70"))
  /\ check_age sample_env (VStr ([9; 32; 160] ++ lit "1_70" ++ [13; 10]))
     = check_age sample_env (VStr (lit "1_70")).
Proof.
  assert (H1 : Forall (fun c => int_char sample_env c = ISpace) [9; 32; 160])
    by (repeat constructor).
  assert (H2 : Forall (fun c => int_char sample_env c = ISpace) [13; 10])
    by (repeat constructor).
  split; [exact H1 |]. split; [exact H2 |].
  exact (numeric_checks_ignore_padding sample_env _ (lit "1_70") _ H1 H2).
Defined.

(* ================================================================== *)
(** ** Further properties: numbers written and read back *)

Section Decimal_round_trip.

Variable env : PyEnv.

Ltac scan_digit IH k :=
  match goal with
  | |- scan_digits false ?acc ?n _ = Some (_, _ + N.of_nat (Decimal.nb_digits (_ ?d)), _) =>
      change (scan_digits false (10 * acc + k)%Z (n + 1)
                (map (int_char env) (lit (NilEmpty.string_of_uint d)))
              = Some (uint_value (10 * acc + k) d,
                      n + N.of_nat (S (Decimal.nb_digits d)), []));
      rewrite IH; f_equal; f_equal; f_equal; lia
  end.

Lemma scan_string_of_uint : forall (d : Decimal.uint) (acc : Z) (n : N),
  scan_digits false acc n
    (map (int_char env) (lit (NilEmpty.string_of_uint d)))
  = Some (uint_value acc d, n + N.of_nat (Decimal.nb_digits d), []).
Proof.
  induction d; intros acc n.
  - simpl. rewrite N.add_0_r. reflexivity.
  - scan_digit IHd 0%Z.
  - scan_digit IHd 1%Z.
  - scan_digit IHd 2%Z.
  - scan_digit IHd 3%Z.
  - scan_digit IHd 4%Z.
  - scan_digit IHd 5%Z.
  - scan_digit IHd 6%Z.
  - scan_digit IHd 7%Z.
  - scan_digit IHd 8%Z.
  - scan_digit IHd 9%Z.
Qed.

Lemma uint_value_pos : forall (d : Decimal.uint) (p : positive),
  uint_value (Z.pos p) d = Z.pos (Pos.of_uint_acc d p).
Proof.
  induction d; intro p; cbn [uint_value Pos.of_uint_acc]; [reflexivity | ..];
    rewrite <- IHd; f_equal; lia.
Qed.

Lemma uint_value_zero : forall d : Decimal.uint,
  uint_value 0 d = Z.of_N (Pos.of_uint d).
Proof.
  induction d; cbn [uint_value Pos.of_uint]; [reflexivity | exact IHd | ..];
    apply uint_value_pos.
Qed.

(** The first character of a rendered non-empty number is a digit. *)
Lemma string_of_uint_head (d : Decimal.uint) :
  d <> Decimal.Nil ->
  exists k t, map (int_char env) (lit (NilEmpty.string_of_uint d)) = IDigit k :: t.
Proof.
  destruct d; [contradiction | ..]; intros _;
    cbn [NilEmpty.string_of_uint];
    match goal with
    | |- context [lit (String ?c ?s)] =>
        change (map (int_char env) (lit (String c s)))
          with (int_char env (N_of_ascii c) :: map (int_char env) (lit s))
    end; eexists; eexists; reflexivity.
Qed.

Lemma int_of_digits (sign : Z) (d : Decimal.uint) :
  d <> Decimal.Nil ->
  match scan_digits false 0%Z 0
          (map (int_char env) (lit (NilEmpty.string_of_uint d))) with
  | None => None
  | Some (acc, digits, rest) =>
      if digits =? 0 then None
      else if over_digit_limit env digits then None
      else match skip_space rest with
           | [] => Some (sign * acc)%Z
           | _ => None
           end
  end
  = if over_digit_limit env (N.of_nat (Decimal.nb_digits d)) then None
    else Some (sign * Z.of_N (Pos.of_uint d))%Z.
Proof.
  intro Hd. rewrite scan_string_of_uint, uint_value_zero. cbn [N.add].
  assert (Hn : (N.of_nat (Decimal.nb_digits d) =? 0) = false).
  { apply N.eqb_neq. destruct d; [contradiction | ..]; cbn [Decimal.nb_digits]; lia. }
  rewrite Hn. reflexivity.
Qed.

Lemma int_of_str_of_Z (n : Z) :
  int_of_str env (str_of_Z n)
  = if over_digit_limit env (N.of_nat (decimal_digits n)) then None else Some n.
Proof.
  unfold str_of_Z, decimal_digits, int_of_str.
  destruct n as [| p | p]; cbn [Z.to_int NilZero.string_of_int].
  - reflexivity.
  - pose proof (DecimalPos.Unsigned.to_uint_nonnil p) as Hnn.
    pose proof (DecimalPos.Unsigned.of_to p) as Hof.
    unfold NilZero.string_of_uint.
    destruct (Pos.to_uint p) as [| | | | | | | | | |] eqn:E;
      [contradiction | ..]; rewrite <- E in *;
      (destruct (string_of_uint_head (Pos.to_uint p) Hnn) as (k & t & Hh);
       pose proof (int_of_digits 1%Z (Pos.to_uint p) Hnn) as Hi;
       rewrite Hh in *; cbn [skip_space]; rewrite Hi, Hof;
       destruct (over_digit_limit env _); reflexivity).
  - pose proof (DecimalPos.Unsigned.to_uint_nonnil p) as Hnn.
    pose proof (DecimalPos.Unsigned.of_to p) as Hof.
    unfold NilZero.string_of_uint.
    change (lit (String "-" ?s)) with (45 :: lit s).
    destruct (Pos.to_uint p) as [| | | | | | | | | |] eqn:E;
      [contradiction | ..]; rewrite <- E in *;
      (destruct (string_of_uint_head (Pos.to_uint p) Hnn) as (k & t & Hh);
       pose proof (int_of_digits (-1)%Z (Pos.to_uint p) Hnn) as Hi;
       cbn [map]; change (int_char env 45) with IMinus; cbn [skip_space];
       rewrite Hh in *; rewrite Hi, Hof;
       destruct (over_digit_limit env _); reflexivity).
Qed.

Lemma small_numbers_under_limit (n : Z) :
  (0 <= n < 1000)%Z ->
  over_digit_limit env (N.of_nat (decimal_digits n)) = false.
Proof.
  intro Hn.
  assert (Hall : forallb (fun k => Nat.leb (decimal_digits (Z.of_nat k)) 3)
                         (seq 0 1000) = true) by (vm_compute; reflexivity).
  rewrite forallb_forall in Hall.
  assert (Hk : Nat.leb (decimal_digits (Z.of_nat (Z.to_nat n))) 3 = true)
    by (apply Hall, in_seq; lia).
  rewrite Z2Nat.id in Hk by lia. apply Nat.leb_le in Hk.
  unfold over_digit_limit.
  assert (E : (640 <? N.of_nat (decimal_digits n)) = false)
    by (apply N.ltb_ge; lia).
  rewrite E. reflexivity.
Qed.

End Decimal_round_trip.

(** X20. A number is judged the same as text and as an integer: for every
    integer [n], [check_weight] and [check_age] return on the text [str(n)]
    what they return on [n] itself; and when the interpreter sets no digit
    limit, [int(str(n))] is [n]. *)
Theorem numeric_checks_text_or_integer (env : PyEnv) (n : Z) :
  check_weight env (VStr (str_of_Z n)) = check_weight env (VInt n)
  /\ check_age env (VStr (str_of_Z n)) = check_age env (VInt n)
  /\ (int_max_str_digits env = 0 -> int_of_str env (str_of_Z n) = Some n).
Proof.
  unfold check_weight, check_age, py_int. rewrite int_of_str_of_Z.
  destruct (over_digit_limit env (N.of_nat (decimal_digits n))) eqn:E.
  - split; [| split].
    + destruct ((25 <? n)%Z && (n <? 300)%Z) eqn:B; [| reflexivity].
      apply andb_true_iff in B as [B1 B2].
      rewrite small_numbers_under_limit in E by lia. discriminate.
    + destruct ((18 <=? n)%Z && (n <? 110)%Z) eqn:B; [| reflexivity].
      apply andb_true_iff in B as [B1 B2].
      rewrite small_numbers_under_limit in E by lia. discriminate.
    + intro H0. unfold over_digit_limit in E. rewrite H0 in E.
      rewrite andb_false_r in E. discriminate.
  - repeat split.
Qed.

(* ================================================================== *)
(** ** Further properties: the script *)

Section Script.

Variable env : PyEnv.

Lemma parse_result_known_keys (es : list Entry) :
  forallb str_fields es = true ->
  Forall (Forall known_key) (map (blamed env) (filter (rejected env) es)).
Proof.
  intro H. eapply Forall_impl; [| apply (blamed_rejected_shape env es H)].
  intros ks (field & Hin & ->). constructor; [| constructor].
  apply check_names_declared. assumption.
Qed.

(** The script up to the writing of the valid records. *)
Lemma script_body_steps (data : list jobject) (val : Validator)
      (output_file : pystr) (w : world) :
  Validator_init data = Ok val ->
  forallb str_fields (entries val) = true ->
  exists r,
    show_summary (map (blamed env) (filter (rejected env) (entries val)))
                 output_file = Ok r
    /\ (pystr_eqb output_file [] = false ->
        exists text, r = Written output_file text)
    /\ script_body env data output_file w
       = (let '(name, text, outcome) :=
            save_in_json env (filter (accepted env) (entries val))
                         (lit "valid_data.txt") in
          (write_file name text (put_report r w), outcome)).
Proof.
  intros Hv Hs. unfold script_body. rewrite Hv.
  unfold parse. rewrite (parse_loop_spec env (entries val) [] [] Hs).
  cbn [bind app fst snd].
  pose proof (show_summary_any _ output_file
                (parse_result_known_keys (entries val) Hs)) as Hr.
  cbv zeta in Hr. rewrite Hr.
  eexists. split; [reflexivity |].
  destruct (pystr_eqb output_file []).
  - split; [discriminate | reflexivity].
  - split; [eauto | reflexivity].
Qed.




(** On records whose nine fields are text, the first accepted record stops
    the writing of the valid records. *)
Lemma save_in_json_text_fields (es : list Entry) (filename : pystr) :
  forallb text_fields es = true ->
  filter (accepted env) es <> [] ->
  save_in_json env (filter (accepted env) es) filename
  = (filename, lit "[", Raise TypeError).
Proof.
  intros Ht Hne.
  destruct (filter (accepted env) es) as [| e rest] eqn:E; [contradiction |].
  assert (Hin : In e es).
  { assert (H : In e (filter (accepted env) es)) by (rewrite E; left; reflexivity).
    apply filter_In in H as [H _]. exact H. }
  rewrite forallb_forall in Ht. specialize (Ht e Hin).
  unfold text_fields in Ht.
  apply andb_true_iff in Ht as [Ht Hage].
  apply andb_true_iff in Ht as [Hs Hweight].
  assert (Hr : entry_text env e = Raise TypeError).
  { apply entry_text_raises; [exact Hs |]. left.
    destruct (weight e) as [s | n]; [eauto | discriminate]. }
  unfold save_in_json. simpl. rewrite Hr. reflexivity.
Qed.

Lemma text_fields_str_fields (es : list Entry) :
  forallb text_fields es = true -> forallb str_fields es = true.
Proof.
  rewrite !forallb_forall. intros H e He. specialize (H e He).
  unfold text_fields in H.
  apply andb_true_iff in H as [H _]. apply andb_true_iff in H as [H _].
  exact H.
Qed.

End Script.





(** X23. On input whose nine fields are text in every record, with at
    least one record accepted, a named report file and a report name that
    does not denote the file of valid_data.txt, the script ends with
    [TypeError] only after the report has been written: the report file
    holds the summary although the run failed. *)
Theorem script_body_fails_after_report (env : PyEnv) (data : list jobject)
        (val : Validator) (output_file : pystr) (w : world) :
  Validator_init data = Ok val ->
  forallb text_fields (entries val) = true ->
  filter (accepted env) (entries val) <> [] ->
  pystr_eqb output_file [] = false ->
  file_of w output_file <> file_of w (lit "valid_data.txt") ->
  exists report_text,
    show_summary (map (blamed env) (filter (rejected env) (entries val)))
                 output_file = Ok (Written output_file report_text)
    /\ snd (script_body env data output_file w) = Raise TypeError
    /\ read_file output_file (fst (script_body env data output_file w))
       = Some report_text.
Proof.
  intros Hv Ht Hne Ho Hfile.
  pose proof (text_fields_str_fields (entries val) Ht) as Hs.
  destruct (script_body_steps env data val output_file w Hv Hs)
    as (r & Hr & Hw & Hb).
  destruct (Hw Ho) as [report_text ->].
  exists report_text. split; [exact Hr |].
  rewrite Hb, (save_in_json_text_fields env (entries val) _ Ht Hne).
  unfold read_file.
  cbn [fst snd put_report write_file files file_of console].
  split; [reflexivity |].
  apply N.eqb_neq in Hfile. rewrite Hfile, N.eqb_refl. reflexivity.
Qed.

Lemma script_body_fails_after_report_witness :
  Validator_init [text_object] = Ok {| entries := [text_record] |}
  /\ forallb text_fields (entries {| entries := [text_record] |}) = true
  /\ filter (accepted sample_env) (entries {| entries := [text_record] |}) <> []
  /\ pystr_eqb (lit "21_result.txt") [] = false
  /\ file_of empty_world (lit "21_result.txt")
     <> file_of empty_world (lit "valid_data.txt")
  /\ exists report_text,
    show_summary (map (blamed sample_env)
                      (filter (rejected sample_env)
                              (entries {| entries := [text_record] |})))
                 (lit "21_result.txt")
    = Ok (Written (lit "21_result.txt") report_text)
    /\ snd (script_body sample_env [text_object] (lit "21_result.txt")
                        empty_world) = Raise TypeError
    /\ read_file (lit "21_result.txt")
                 (fst (script_body sample_env [text_object]
                                   (lit "21_result.txt") empty_world))
       = Some report_text.
Proof.
  assert (H1 : Validator_init [text_object] = Ok {| entries := [text_record] |})
    by reflexivity.
  assert (H2 : forallb text_fields (entries {| entries := [text_record] |}) = true)
    by reflexivity.
  assert (H3 : filter (accepted sample_env)
                      (entries {| entries := [text_record] |}) <> []).
  { change (filter (accepted sample_env) (entries {| entries := [text_record] |}))
      with [text_record].
    intro H. discriminate H. }
  assert (H4 : pystr_eqb (lit "21_result.txt") [] = false) by reflexivity.
  assert (H5 : file_of empty_world (lit "21_result.txt")
               <> file_of empty_world (lit "valid_data.txt")).
  { change (file_of empty_world (lit "21_result.txt")) with 0.
    change (file_of empty_world (lit "valid_data.txt")) with 1.
    intro H. discriminate H. }
  split; [exact H1 |]. split; [exact H2 |]. split; [exact H3 |].
  split; [exact H4 |]. split; [exact H5 |].
  exact (script_body_fails_after_report sample_env _ _ (lit "21_result.txt")
           empty_world H1 H2 H3 H4 H5).
Defined.
